(* Verification of the storefront front end app.js: the cart engine, the
   catalog filter, the persistence of the cart and the contact form.

   The program is embedded shallowly.  Its state (the module-level
   variables, the storage slot and the parts of the document it writes) is
   a record threaded through a state-and-exception monad; the ECMAScript
   built-ins it calls (strings, numbers, JSON, regular expressions) are
   modelled in the modules that come first. *)

From Stdlib Require Import ZArith List String Ascii Bool Lia.
From Stdlib Require Import Floats.SpecFloat.
Import ListNotations.
Open Scope string_scope.
Open Scope Z_scope.


(* Strings are sequences of code units; the model covers the code units
   U+0000 .. U+00FF. *)
Module JSString.

Definition code (c : ascii) : N := N_of_ascii c.
Definition dquote : ascii := "034"%char.
Definition backslash : ascii := "092"%char.

(* WhiteSpace and LineTerminator code units: TAB LF VT FF CR SP NBSP. *)
Definition is_white_space (c : ascii) : bool :=
  ((9 <=? code c) && (code c <=? 13) || (code c =? 32) || (code c =? 160))%N.

Fixpoint trimStart (s : string) : string :=
  match s with
  | String c r => if is_white_space c then trimStart r else s
  | EmptyString => s
  end.

Fixpoint trimEnd (s : string) : string :=
  match s with
  | String c r =>
      match trimEnd r with
      | EmptyString => if is_white_space c then EmptyString else String c EmptyString
      | r' => String c r'
      end
  | EmptyString => s
  end.

Definition trim (s : string) : string := trimEnd (trimStart s).

(* Lower case of one code unit: A-Z, and U+00C0 .. U+00DE except U+00D7. *)
Definition lower_char (c : ascii) : ascii :=
  if ((65 <=? code c) && (code c <=? 90) ||
      (192 <=? code c) && (code c <=? 222) && negb (code c =? 215))%N
  then ascii_of_N (code c + 32) else c.

Fixpoint toLowerCase (s : string) : string :=
  match s with
  | String c r => String (lower_char c) (toLowerCase r)
  | EmptyString => EmptyString
  end.

Fixpoint startsWith (s q : string) : bool :=
  match q, s with
  | EmptyString, _ => true
  | String a q', String b s' => Ascii.eqb a b && startsWith s' q'
  | String _ _, EmptyString => false
  end.

(* String.prototype.includes(q): q occurs somewhere in s. *)
Fixpoint includes (s q : string) : bool :=
  startsWith s q ||
  match s with
  | String _ s' => includes s' q
  | EmptyString => false
  end.

Fixpoint all_chars (f : ascii -> bool) (s : string) : bool :=
  match s with
  | String c r => f c && all_chars f r
  | EmptyString => true
  end.

Fixpoint concat_map (f : ascii -> string) (s : string) : string :=
  match s with
  | String c r => f c ++ concat_map f r
  | EmptyString => EmptyString
  end.

End JSString.

Module JSNumber.

Definition number := spec_float.
Definition prec : Z := 53.
Definition emax : Z := 1024.

Definition of_Z (z : Z) : number := binary_normalize prec emax z 0 false.
Definition add : number -> number -> number := SFadd prec emax.
Definition mul : number -> number -> number := SFmul prec emax.
Definition strict_equals : number -> number -> bool := SFeqb.

(* ToBoolean on a number: false for +0, -0 and NaN. *)
Definition truthy (x : number) : bool :=
  match x with
  | S754_zero _ | S754_nan => false
  | _ => true
  end.

(* The correctly rounded quotient of two positive integers. *)
Definition of_ratio (neg : bool) (n d : positive) : number :=
  SFdiv prec emax (S754_finite neg n 0) (S754_finite false d 0).

(* The number nearest to s * 10^p. *)
Definition of_decimal (neg : bool) (s p : Z) : number :=
  match s with
  | Zpos m =>
      if 0 <=? p then of_ratio neg (m * Z.to_pos (10 ^ p)) 1
      else of_ratio neg m (Z.to_pos (10 ^ (- p)))
  | _ => S754_zero neg
  end.

(* Magnitude of a finite number as an exact fraction (numerator, denominator). *)
Definition magnitude (x : number) : Z * Z :=
  match x with
  | S754_finite _ m e =>
      if 0 <=? e then (Zpos m * 2 ^ e, 1) else (Zpos m, 2 ^ (- e))
  | _ => (0, 1)
  end.

Definition is_negative (x : number) : bool :=
  match x with
  | S754_finite s _ _ | S754_infinity s => s
  | _ => false
  end.

Definition digit_char (d : Z) : ascii := ascii_of_N (Z.to_N (48 + d)).

Fixpoint digits_fuel (fuel : nat) (n : Z) (acc : string) : string :=
  match fuel with
  | O => acc
  | S fuel' =>
      let acc' := String (digit_char (n mod 10)) acc in
      if n <? 10 then acc' else digits_fuel fuel' (n / 10) acc'
  end.

(* Decimal digits of a non-negative integer. *)
Definition digits (n : Z) : string :=
  digits_fuel (S (Z.to_nat (Z.log2 n))) n "".

Fixpoint zeros (n : nat) : string :=
  match n with O => "" | S n' => String "0" (zeros n') end.

Definition slen (s : string) : Z := Z.of_nat (String.length s).


(* The n with 10^(n-1) <= num/den < 10^n, for positive num and den. *)
Fixpoint first_scale (fuel : nat) (num den j : Z) : Z :=
  match fuel with
  | O => j
  | S fuel' =>
      if den <=? num * 10 ^ j then j else first_scale fuel' num den (j + 1)
  end.

Definition decimal_exponent (num den : Z) : Z :=
  if den <=? num then slen (digits (num / den))
  else 1 - first_scale 400 num den 1.

(* Number::toString step 5: the shortest digit string s (k digits) and
   exponent n such that s * 10^(n-k) rounds to x; the closest one to x
   when several have k digits. *)
Fixpoint shortest (fuel : nat) (x : number) (num den n k : Z) : Z * Z * Z :=
  let '(a, b) :=
    if 0 <=? k - n then (num * 10 ^ (k - n), den)
    else (num, den * 10 ^ (n - k)) in
  let lo := a / b in
  let r := a mod b in
  let '(hi, hn) :=
    if lo + 1 =? 10 ^ k then (10 ^ (k - 1), n + 1) else (lo + 1, n) in
  let lo_ok := strict_equals (of_decimal false lo (n - k)) x in
  let hi_ok := strict_equals (of_decimal false hi (hn - k)) x in
  let prefer_lo := (2 * r <? b) || ((2 * r =? b) && Z.even lo) in
  match fuel with
  | O => if prefer_lo then (lo, n, k) else (hi, hn, k)
  | S fuel' =>
      if lo_ok && (prefer_lo || negb hi_ok) then (lo, n, k)
      else if hi_ok then (hi, hn, k)
      else shortest fuel' x num den n (k + 1)
  end.

(* Number::toString(x), radix 10. *)
Definition toString (x : number) : string :=
  match x with
  | S754_nan => "NaN"
  | S754_zero _ => "0"
  | S754_infinity s => if s then "-Infinity" else "Infinity"
  | S754_finite neg _ _ =>
      let '(num, den) := magnitude x in
      let '(s, n, k) :=
        shortest 16 (SFabs x) num den (decimal_exponent num den) 1 in
      let ds := digits s in
      let exponent :=
        (if n - 1 <? 0 then "-" else "+") ++ digits (Z.abs (n - 1)) in
      let body :=
        if (k <=? n) && (n <=? 21) then ds ++ zeros (Z.to_nat (n - k))
        else if (0 <? n) && (n <=? 21) then
          substring 0 (Z.to_nat n) ds ++ "." ++
          substring (Z.to_nat n) (Z.to_nat (k - n)) ds
        else if (-6 <? n) && (n <=? 0) then
          "0." ++ zeros (Z.to_nat (- n)) ++ ds
        else if k =? 1 then ds ++ "e" ++ exponent
        else substring 0 1 ds ++ "." ++
             substring 1 (Z.to_nat (k - 1)) ds ++ "e" ++ exponent in
      if neg then "-" ++ body else body
  end.

(* The integer n for which n / 10^f - x is closest to zero, the larger
   one of two (Number.prototype.toFixed, step 10.a). *)
Definition fixed_units (x : number) (f : nat) : Z :=
  let '(num, den) := magnitude x in
  (2 * num * 10 ^ Z.of_nat f + den) / (2 * den).

(* Number.prototype.toFixed(f). *)
Definition toFixed (x : number) (f : nat) : string :=
  match x with
  | S754_nan | S754_infinity _ => toString x
  | _ =>
      let '(num, den) := magnitude x in
      if 10 ^ 21 * den <=? num then toString x
      else
        let m := digits (fixed_units x f) in
        let m := zeros (S f - String.length m) ++ m in
        let k := String.length m in
        let m :=
          match f with
          | O => m
          | _ => substring 0 (k - f) m ++ "." ++ substring (k - f) f m
          end in
        if is_negative x then "-" ++ m else m
  end.

End JSNumber.

Module JSON.
Import JSString JSNumber.

(* The values JSON.parse can return. *)
#[warnings="-register-all"]
Inductive value :=
  | Null
  | Bool (b : bool)
  | Num (x : number)
  | Str (s : string)
  | Arr (items : list value)
  | Obj (props : list (string * value)).

(* ToBoolean. *)
Definition truthy (v : value) : bool :=
  match v with
  | Null => false
  | Bool b => b
  | Num x => JSNumber.truthy x
  | Str s => negb (String.eqb s "")
  | Arr _ | Obj _ => true
  end.

(* ---- JSON.stringify ---- *)

Definition hex_char (n : N) : ascii :=
  ascii_of_N (if (n <? 10)%N then 48 + n else 87 + n).

(* QuoteJSONString, one code unit. *)
Definition quote_char (c : ascii) : string :=
  let n := code c in
  if (n =? 8)%N then String backslash "b"
  else if (n =? 9)%N then String backslash "t"
  else if (n =? 10)%N then String backslash "n"
  else if (n =? 12)%N then String backslash "f"
  else if (n =? 13)%N then String backslash "r"
  else if (n =? 34)%N then String backslash (String dquote "")
  else if (n =? 92)%N then String backslash (String backslash "")
  else if (n <? 32)%N then
    String backslash
      (String "u" (String "0" (String "0"
        (String (hex_char (n / 16)) (String (hex_char (n mod 16)) "")))))
  else String c "".

Definition quote (s : string) : string :=
  String dquote (concat_map quote_char s ++ String dquote "").

Fixpoint join (sep : string) (l : list string) : string :=
  match l with
  | [] => ""
  | [x] => x
  | x :: l' => x ++ sep ++ join sep l'
  end.

Definition is_finite (x : number) : bool :=
  match x with
  | S754_zero _ | S754_finite _ _ _ => true
  | _ => false
  end.

Fixpoint stringify (v : value) : string :=
  match v with
  | Null => "null"
  | Bool b => if b then "true" else "false"
  | Num x => if is_finite x then toString x else "null"
  | Str s => quote s
  | Arr items => "[" ++ join "," (map stringify items) ++ "]"
  | Obj props =>
      "{" ++ join ","
               (map (fun p => quote (fst p) ++ ":" ++ stringify (snd p)) props)
          ++ "}"
  end.

(* The text of one property of an object. *)
Definition member_text (p : string * value) : string :=
  quote (fst p) ++ ":" ++ stringify (snd p).

(* ---- JSON.parse ---- *)

Notation "'do' p <- a ; b" :=
  (match a with Some p => b | None => None end)
  (at level 10, p pattern, a at level 100, b at level 200).

Definition is_json_ws (c : ascii) : bool :=
  ((code c =? 32) || (code c =? 9) || (code c =? 10) || (code c =? 13))%N.

Fixpoint skip_ws (s : string) : string :=
  match s with
  | String c r => if is_json_ws c then skip_ws r else s
  | EmptyString => s
  end.

Fixpoint strip_prefix (p s : string) : option string :=
  match p, s with
  | EmptyString, _ => Some s
  | String a p', String b s' =>
      if Ascii.eqb a b then strip_prefix p' s' else None
  | String _ _, EmptyString => None
  end.

Definition is_digit (c : ascii) : bool :=
  ((48 <=? code c) && (code c <=? 57))%N.

(* The code units a JSON number is written with. *)
Definition is_number_char (c : ascii) : bool :=
  is_digit c || (code c =? 43)%N || (code c =? 45)%N || (code c =? 46)%N
  || (code c =? 69)%N || (code c =? 101)%N.

Fixpoint span (f : ascii -> bool) (s : string) : string * string :=
  match s with
  | String c r =>
      if f c then let '(a, b) := span f r in (String c a, b)
      else (EmptyString, s)
  | EmptyString => (EmptyString, EmptyString)
  end.

Fixpoint digits_value (s : string) (acc : Z) : Z :=
  match s with
  | String c r => digits_value r (10 * acc + Z.of_N (code c - 48))
  | EmptyString => acc
  end.

(* JSONNumber, the whole of tok: an optional minus sign; an integer part
   that is 0 or starts with a non-zero digit; an optional fraction, a dot
   and at least one digit; an optional exponent, e or E, an optional sign
   and at least one digit. *)
Definition parse_number (tok : string) : option number :=
  let '(neg, s1) :=
    match tok with
    | String "-" r => (true, r)
    | _ => (false, tok)
    end in
  let '(ip, s2) := span is_digit s1 in
  if String.eqb ip "" || (startsWith ip "0" && negb (String.eqb ip "0"))
  then None
  else
    do (fp, s3) <-
        match s2 with
        | String "." r =>
            let '(fp, r') := span is_digit r in
            if String.eqb fp "" then None else Some (fp, r')
        | _ => Some (EmptyString, s2)
        end ;
    do (ex, s4) <-
        match s3 with
        | String ("e" | "E")%char r =>
            let '(eneg, r1) :=
              match r with
              | String "-" r' => (true, r')
              | String "+" r' => (false, r')
              | _ => (false, r)
              end in
            let '(ed, r2) := span is_digit r1 in
            if String.eqb ed "" then None
            else Some (if eneg then - digits_value ed 0 else digits_value ed 0, r2)
        | _ => Some (0, s3)
        end ;
    match s4 with
    | EmptyString =>
        Some (of_decimal neg (digits_value (ip ++ fp) 0)
                (ex - Z.of_nat (String.length fp)))
    | _ => None
    end.

Definition hex_value (c : ascii) : option N :=
  let n := code c in
  if is_digit c then Some (n - 48)%N
  else if ((97 <=? n) && (n <=? 102))%N then Some (n - 87)%N
  else if ((65 <=? n) && (n <=? 70))%N then Some (n - 55)%N
  else None.

(* The code unit an escape \c stands for. *)
Definition unescape (c : ascii) : option ascii :=
  let n := code c in
  if (n =? 34)%N || (n =? 92)%N || (n =? 47)%N then Some c
  else if (n =? 98)%N then Some (ascii_of_N 8)
  else if (n =? 102)%N then Some (ascii_of_N 12)
  else if (n =? 110)%N then Some (ascii_of_N 10)
  else if (n =? 114)%N then Some (ascii_of_N 13)
  else if (n =? 116)%N then Some (ascii_of_N 9)
  else None.

(* The characters of a JSONString after its opening quote, up to and
   including the closing quote.  An escape \uXXXX above U+00FF is outside
   the modelled code units and is refused. *)
Fixpoint parse_chars (s : string) : option (string * string) :=
  match s with
  | EmptyString => None
  | String c r =>
      if Ascii.eqb c dquote then Some (EmptyString, r)
      else if Ascii.eqb c backslash then
        match r with
        | String "u" (String h1 (String h2 (String h3 (String h4 r')))) =>
            do a <- hex_value h1 ; do b <- hex_value h2 ;
            do c <- hex_value h3 ; do d <- hex_value h4 ;
            if ((a =? 0) && (b =? 0))%N then
              do (t, r'') <- parse_chars r' ;
              Some (String (ascii_of_N (16 * c + d)) t, r'')
            else None
        | String e r' =>
            do u <- unescape e ;
            do (t, r'') <- parse_chars r' ;
            Some (String u t, r'')
        | EmptyString => None
        end
      else if (code c <? 32)%N then None
      else
        do (t, r') <- parse_chars r ;
        Some (String c t, r')
  end.

(* Array index keys: canonical numeric strings below 2^32 - 1; an object
   lists them first, in ascending order. *)
Definition array_index (k : string) : option Z :=
  if negb (String.eqb k "") && all_chars is_digit k
     && (String.eqb k "0" || negb (startsWith k "0"))
     && (digits_value k 0 <? 2 ^ 32 - 1)
  then Some (digits_value k 0) else None.

Definition props := list (string * value).

Fixpoint set_existing (k : string) (v : value) (ps : props) : option props :=
  match ps with
  | [] => None
  | (k', v') :: r =>
      if String.eqb k k' then Some ((k, v) :: r)
      else option_map (cons (k', v')) (set_existing k v r)
  end.

Fixpoint insert_index (i : Z) (k : string) (v : value) (ps : props) : props :=
  match ps with
  | [] => [(k, v)]
  | (k', v') :: r =>
      match array_index k' with
      | Some j =>
          if j <? i then (k', v') :: insert_index i k v r else (k, v) :: ps
      | None => (k, v) :: ps
      end
  end.

(* CreateDataProperty on an ordinary object, own keys kept in the order
   OrdinaryOwnPropertyKeys lists them. *)
Definition define_property (ps : props) (kv : string * value) : props :=
  let '(k, v) := kv in
  match set_existing k v ps with
  | Some ps' => ps'
  | None =>
      match array_index k with
      | Some i => insert_index i k v ps
      | None => (ps ++ [(k, v)])%list
      end
  end.

Definition object_of (members : props) : value :=
  Obj (fold_left define_property members []).

Definition parser (A : Type) := string -> option (A * string).

(* Elements after "[", up to and including "]"; n bounds their number. *)
Fixpoint parse_items (elem : parser value) (n : nat) (s : string)
  : option (list value * string) :=
  match n with
  | O => None
  | S n' =>
      do (v, r) <- elem s ;
      match skip_ws r with
      | String c r' =>
          if Ascii.eqb c "," then
            do (vs, r'') <- parse_items elem n' r' ; Some (v :: vs, r'')
          else if Ascii.eqb c "]" then Some ([v], r')
          else None
      | EmptyString => None
      end
  end.

(* Members after "{", up to and including "}". *)
Fixpoint parse_members (elem : parser value) (n : nat) (s : string)
  : option (props * string) :=
  match n with
  | O => None
  | S n' =>
      match skip_ws s with
      | String q r =>
          if Ascii.eqb q dquote then
            do (k, r1) <- parse_chars r ;
            match skip_ws r1 with
            | String c r2 =>
                if Ascii.eqb c ":" then
                  do (v, r3) <- elem r2 ;
                  match skip_ws r3 with
                  | String d r4 =>
                      if Ascii.eqb d "," then
                        do (ms, r5) <- parse_members elem n' r4 ;
                        Some ((k, v) :: ms, r5)
                      else if Ascii.eqb d "}" then Some ([(k, v)], r4)
                      else None
                  | EmptyString => None
                  end
                else None
            | EmptyString => None
            end
          else None
      | EmptyString => None
      end
  end.

Definition parse_word (w : string) (v : value) : parser value :=
  fun s => do r <- strip_prefix w s ; Some (v, r).

(* The JSONValue that starts with the code unit c, r being what follows
   c; elem reads the values nested in it. *)
Definition parse_token (elem : parser value) (c : ascii) (r : string)
  : option (value * string) :=
  if Ascii.eqb c "[" then
    match strip_prefix "]" (skip_ws r) with
    | Some r' => Some (Arr [], r')
    | None =>
        do (vs, r') <- parse_items elem (String.length r) r ;
        Some (Arr vs, r')
    end
  else if Ascii.eqb c "{" then
    match strip_prefix "}" (skip_ws r) with
    | Some r' => Some (Obj [], r')
    | None =>
        do (ms, r') <- parse_members elem (String.length r) r ;
        Some (object_of ms, r')
    end
  else if Ascii.eqb c dquote then
    do (x, r') <- parse_chars r ; Some (Str x, r')
  else if Ascii.eqb c "n" then parse_word "null" Null (String c r)
  else if Ascii.eqb c "t" then parse_word "true" (Bool true) (String c r)
  else if Ascii.eqb c "f" then parse_word "false" (Bool false) (String c r)
  else
    let '(tok, r') := span is_number_char (String c r) in
    do x <- parse_number tok ; Some (Num x, r').

(* One JSONValue with leading white space; fuel bounds the nesting. *)
Fixpoint parse_value (fuel : nat) (s : string) : option (value * string) :=
  match fuel with
  | O => None
  | S fuel' =>
      match skip_ws s with
      | EmptyString => None
      | String c r => parse_token (parse_value fuel') c r
      end
  end.

(* JSON.parse(text): None stands for the SyntaxError it throws. *)
Definition parse (text : string) : option value :=
  do (v, r) <- parse_value (S (String.length text)) text ;
  match skip_ws r with
  | EmptyString => Some v
  | _ => None
  end.

(* The nesting of a value. *)
Fixpoint depth (v : value) : nat :=
  match v with
  | Arr items => S (fold_right (fun x m => Nat.max (depth x) m) O items)
  | Obj props => S (fold_right (fun p m => Nat.max (depth (snd p)) m) O props)
  | _ => O
  end.

(* A number that JSON.stringify writes as a JSON number which JSON.parse
   reads back as the same number.  Number::toString promises it of every
   finite number but -0. *)
Definition storable (x : number) : Prop :=
  is_finite x = true /\
  all_chars is_number_char (toString x) = true /\
  parse_number (toString x) = Some x.

(* A value whose numbers are storable and whose objects list their
   properties in the order an object keeps them. *)
#[warnings="-register-all"]
Inductive stable : value -> Prop :=
  | stable_null : stable Null
  | stable_bool b : stable (Bool b)
  | stable_num x : storable x -> stable (Num x)
  | stable_str s : stable (Str s)
  | stable_arr items : Forall stable items -> stable (Arr items)
  | stable_obj props :
      Forall (fun p => stable (snd p)) props ->
      fold_left define_property props [] = props ->
      stable (Obj props).

(* What may follow a value in a JSON text: nothing, or a code unit that
   no number is written with. *)
Definition delimited (rest : string) : Prop :=
  match rest with
  | EmptyString => True
  | String c _ => is_number_char c = false
  end.

(* A parser reads v back from the text stringify writes for it. *)
Definition reads_back (elem : parser value) (v : value) : Prop :=
  forall rest, delimited rest -> elem (stringify v ++ rest) = Some (v, rest).

End JSON.

(* ------------------------------------------------------------------ *)
(* Regular expressions, as far as app.js uses them.                    *)
Module RegExp.

Inductive regex :=
  | Fail
  | Eps
  | Class (f : ascii -> bool)
  | Cat (r1 r2 : regex)
  | Alt (r1 r2 : regex)
  | Star (r : regex).

Definition Plus (r : regex) : regex := Cat r (Star r).
Definition Lit (c : ascii) : regex := Class (Ascii.eqb c).

Fixpoint nullable (r : regex) : bool :=
  match r with
  | Fail | Class _ => false
  | Eps | Star _ => true
  | Cat r1 r2 => nullable r1 && nullable r2
  | Alt r1 r2 => nullable r1 || nullable r2
  end.

Fixpoint deriv (c : ascii) (r : regex) : regex :=
  match r with
  | Fail | Eps => Fail
  | Class f => if f c then Eps else Fail
  | Cat r1 r2 =>
      if nullable r1 then Alt (Cat (deriv c r1) r2) (deriv c r2)
      else Cat (deriv c r1) r2
  | Alt r1 r2 => Alt (deriv c r1) (deriv c r2)
  | Star r1 => Cat (deriv c r1) (Star r1)
  end.

(* /^r$/.test(s) *)
Fixpoint test (r : regex) (s : string) : bool :=
  match s with
  | EmptyString => nullable r
  | String c s' => test (deriv c r) s'
  end.

(* The strings a regular expression denotes. *)
Inductive matches : regex -> string -> Prop :=
  | m_eps : matches Eps ""
  | m_class f c : f c = true -> matches (Class f) (String c "")
  | m_cat r1 r2 s1 s2 :
      matches r1 s1 -> matches r2 s2 -> matches (Cat r1 r2) (s1 ++ s2)
  | m_alt_l r1 r2 s : matches r1 s -> matches (Alt r1 r2) s
  | m_alt_r r1 r2 s : matches r2 s -> matches (Alt r1 r2) s
  | m_star_nil r : matches (Star r) ""
  | m_star_cons r s1 s2 :
      matches r s1 -> matches (Star r) s2 -> matches (Star r) (s1 ++ s2).

End RegExp.

(* ------------------------------------------------------------------ *)
(* app.js                                                              *)

Import JSString JSNumber.

Definition API_BASE : string := "https://fakestoreapi.com".
Definition PRODUCTS_URL : string := API_BASE ++ "/products".

(** Modelled from the spec: the fields of a Product.  app.js receives the
    products from the catalog API and declares no type for them; the data
    model of the specification lists these six fields.  The id is a number
    that holds an integer; it is kept as an integer, which === compares
    exactly. *)
Record Product := {
  id : Z;
  title : string;
  price : number;
  description : string;
  category : string;
  image : string
}.

(* A cart line is { ...prod, qty }.  addToCart can be handed undefined,
   whose spread has no property: product = None is the line { qty: 1 }.
   The quantity is a number that holds an integer: it starts at 1 and
   moves by qty++ and qty + q; it is kept as an integer, which these
   operations compute exactly below 2^53. *)
Record CartLine := {
  product : option Product;
  qty : Z
}.

(* What updateCartUI draws for one line. *)
Record LineView := {
  view_image : string;
  view_title : string;
  view_price : string;
  view_qty : Z;
  view_id : option Z
}.

(* The parts of the document app.js reads and writes: the two filter
   controls, the drawn product cards, the cart panel (its hidden class and
   the aria-expanded of its toggle) and the three places updateCartUI
   fills. *)
Record Dom := {
  search_value : string;
  categoryFilter_value : string;
  productList : list Product;
  cartPanel_hidden : bool;
  cartToggle_expanded : bool;
  cartCount : Z;
  cartItems : list LineView;
  cartTotal : string
}.

(* The module-level variables, the slot 'cart' of localStorage (None when
   the key is missing) and the document. *)
Record State := {
  products : list Product;
  filtered : list Product;
  cart : list CartLine;
  localStorage_cart : option string;
  dom : Dom
}.

(* What a call does besides changing the state. *)
Inductive Effect :=
  | Alert (msg : string)
  | Confirm (msg : string)
  | Toast (msg : string)
  | SetItem (key value : string)
  | WindowOpen (url : string).

(* TypeError: Cannot read properties of undefined (reading '...'). *)
Inductive Error :=
  | TypeError (reading : string)
  | SyntaxError.

(* A call returns or throws, in a state and with the effects so far. *)
Inductive Outcome (A : Type) :=
  | Return (a : A) (s : State) (log : list Effect)
  | Throw (e : Error) (s : State) (log : list Effect).
Arguments Return {A}.
Arguments Throw {A}.

Definition M (A : Type) : Type := State -> Outcome A.

Definition ret {A} (a : A) : M A := fun s => Return a s [].

Definition bind {A B} (m : M A) (k : A -> M B) : M B :=
  fun s =>
    match m s with
    | Return a s1 l1 =>
        match k a s1 with
        | Return b s2 l2 => Return b s2 (l1 ++ l2)
        | Throw e s2 l2 => Throw e s2 (l1 ++ l2)
        end
    | Throw e s1 l1 => Throw e s1 l1
    end.

Definition get : M State := fun s => Return s s [].
Definition modify (f : State -> State) : M unit := fun s => Return tt (f s) [].
Definition emit (e : Effect) : M unit := fun s => Return tt s [e].
Definition throw {A} (e : Error) : M A := fun s => Throw e s [].

Notation "x <- m ;; k" := (bind m (fun x => k))
  (at level 61, m at next level, right associativity).
Notation "m ;; k" := (bind m (fun _ => k))
  (at level 61, right associativity).

Definition set_cart (c : list CartLine) (s : State) : State :=
  {| products := products s; filtered := filtered s; cart := c;
     localStorage_cart := localStorage_cart s; dom := dom s |}.

Definition set_filtered (l : list Product) (s : State) : State :=
  {| products := products s; filtered := l; cart := cart s;
     localStorage_cart := localStorage_cart s; dom := dom s |}.

Definition set_storage (v : string) (s : State) : State :=
  {| products := products s; filtered := filtered s; cart := cart s;
     localStorage_cart := Some v; dom := dom s |}.

Definition set_dom (f : Dom -> Dom) (s : State) : State :=
  {| products := products s; filtered := filtered s; cart := cart s;
     localStorage_cart := localStorage_cart s; dom := f (dom s) |}.

Definition set_productList (l : list Product) (d : Dom) : Dom :=
  {| search_value := search_value d;
     categoryFilter_value := categoryFilter_value d;
     productList := l;
     cartPanel_hidden := cartPanel_hidden d;
     cartToggle_expanded := cartToggle_expanded d;
     cartCount := cartCount d; cartItems := cartItems d;
     cartTotal := cartTotal d |}.

Definition set_cartPanel (hidden expanded : bool) (d : Dom) : Dom :=
  {| search_value := search_value d;
     categoryFilter_value := categoryFilter_value d;
     productList := productList d;
     cartPanel_hidden := hidden;
     cartToggle_expanded := expanded;
     cartCount := cartCount d; cartItems := cartItems d;
     cartTotal := cartTotal d |}.

Definition set_cartCount (n : Z) (d : Dom) : Dom :=
  {| search_value := search_value d;
     categoryFilter_value := categoryFilter_value d;
     productList := productList d;
     cartPanel_hidden := cartPanel_hidden d;
     cartToggle_expanded := cartToggle_expanded d;
     cartCount := n; cartItems := cartItems d;
     cartTotal := cartTotal d |}.

Definition set_cartItems (l : list LineView) (d : Dom) : Dom :=
  {| search_value := search_value d;
     categoryFilter_value := categoryFilter_value d;
     productList := productList d;
     cartPanel_hidden := cartPanel_hidden d;
     cartToggle_expanded := cartToggle_expanded d;
     cartCount := cartCount d; cartItems := l;
     cartTotal := cartTotal d |}.

Definition set_cartTotal (t : string) (d : Dom) : Dom :=
  {| search_value := search_value d;
     categoryFilter_value := categoryFilter_value d;
     productList := productList d;
     cartPanel_hidden := cartPanel_hidden d;
     cartToggle_expanded := cartToggle_expanded d;
     cartCount := cartCount d; cartItems := cartItems d;
     cartTotal := t |}.

(* ---------- Render ---------- *)

Definition renderProducts (list : list Product) : M unit :=
  modify (set_dom (set_productList list)).

(* ---------- Filtros ---------- *)

Definition applyFilters : M unit :=
  s <- get ;;
  let q := toLowerCase (trim (search_value (dom s))) in
  let cat := categoryFilter_value (dom s) in
  let result :=
    filter (fun p =>
              (String.eqb cat "all" || String.eqb (category p) cat) &&
              (includes (toLowerCase (title p)) q ||
               includes (toLowerCase (description p)) q))
           (products s) in
  modify (set_filtered result) ;;
  renderProducts result.

(* ---------- Utilidades ---------- *)

Definition escape_char (c : ascii) : string :=
  if Ascii.eqb c "&" then "&amp;"
  else if Ascii.eqb c "<" then "&lt;"
  else if Ascii.eqb c ">" then "&gt;"
  else if Ascii.eqb c dquote then "&quot;"
  else if Ascii.eqb c "'" then "&#39;"
  else String c "".

(* escape(str = ''): None is undefined, replaced by the default. *)
Definition escape (str : option string) : string :=
  concat_map escape_char (match str with Some t => t | None => "" end).

Definition toast (msg : string) : M unit := emit (Toast msg).

(* ---------- Carrito: abrir/cerrar ---------- *)

Definition openCart : M unit := modify (set_dom (set_cartPanel false true)).
Definition closeCart : M unit := modify (set_dom (set_cartPanel true false)).

Definition toggleCart : M unit :=
  s <- get ;;
  if cartPanel_hidden (dom s) then openCart else closeCart.

(* ---------- Persistencia ---------- *)

Definition product_props (p : Product) : JSON.props :=
  [ ("id", JSON.Num (of_Z (id p)));
    ("title", JSON.Str (title p));
    ("price", JSON.Num (price p));
    ("description", JSON.Str (description p));
    ("category", JSON.Str (category p));
    ("image", JSON.Str (image p)) ].

(* The JavaScript value of a cart line and of the cart array. *)
Definition line_value (i : CartLine) : JSON.value :=
  JSON.Obj
    ((match product i with Some p => product_props p | None => [] end)
       ++ [("qty", JSON.Num (of_Z (qty i)))])%list.

Definition cart_value (c : list CartLine) : JSON.value :=
  JSON.Arr (map line_value c).

Definition saveCart : M unit :=
  s <- get ;;
  let text := JSON.stringify (cart_value (cart s)) in
  modify (set_storage text) ;;
  emit (SetItem "cart" text).

Inductive Completion (A : Type) :=
  | Normal (a : A)
  | Abrupt (e : Error).
Arguments Normal {A}.
Arguments Abrupt {A}.

Definition try_catch {A} (body handler : Completion A) : Completion A :=
  match body with
  | Normal a => Normal a
  | Abrupt _ => handler
  end.

Definition JSON_parse (text : string) : Completion JSON.value :=
  match JSON.parse text with
  | Some v => Normal v
  | None => Abrupt SyntaxError
  end.

(* localStorage.getItem('cart') is null for a missing key, and JSON.parse
   reads the string of its argument. *)
Definition loadCart (slot : option string) : Completion JSON.value :=
  try_catch
    match JSON_parse (match slot with Some t => t | None => "null" end) with
    | Normal v => Normal (if JSON.truthy v then v else JSON.Arr [])
    | Abrupt e => Abrupt e
    end
    (Normal (JSON.Arr [])).

(* ---------- Carrito ---------- *)

Definition line_id (i : CartLine) : option Z := option_map id (product i).

(* i.id === n *)
Definition has_id (n : Z) (i : CartLine) : bool :=
  match line_id i with
  | Some m => m =? n
  | None => false
  end.

(* The element cart.find returns is the first one that satisfies the
   test; assigning to its property changes the cart at that place. *)
Fixpoint update_first {A} (f : A -> bool) (g : A -> A) (l : list A) : list A :=
  match l with
  | [] => []
  | x :: l' => if f x then g x :: l' else x :: update_first f g l'
  end.

Definition set_qty (n : Z) (i : CartLine) : CartLine :=
  {| product := product i; qty := n |}.

Definition itemCount (c : list CartLine) : Z :=
  fold_left (fun a i => a + qty i) c 0.

(* i.price * i.qty; NaN when i.price is undefined. *)
Definition line_amount (i : CartLine) : number :=
  match product i with
  | Some p => mul (price p) (of_Z (qty i))
  | None => S754_nan
  end.

Definition grandTotal (c : list CartLine) : number :=
  fold_left (fun t i => add t (line_amount i)) c (of_Z 0).

(* The template of one line; None when i.price is undefined, where
   i.price.toFixed throws. *)
Definition render_line (i : CartLine) : option LineView :=
  match product i with
  | Some p =>
      Some {| view_image := escape (Some (image p));
              view_title := escape (Some (title p));
              view_price := toFixed (price p) 2;
              view_qty := qty i;
              view_id := Some (id p) |}
  | None => None
  end.

Fixpoint render_lines (c : list CartLine) : option (list LineView) :=
  match c with
  | [] => Some []
  | i :: c' =>
      match render_line i with
      | Some v => option_map (cons v) (render_lines c')
      | None => None
      end
  end.

Definition updateCartUI : M unit :=
  s <- get ;;
  modify (set_dom (set_cartCount (itemCount (cart s)))) ;;
  match cart s with
  | [] => modify (set_dom (set_cartItems []))
  | _ =>
      match render_lines (cart s) with
      | Some views => modify (set_dom (set_cartItems views))
      | None => throw (TypeError "toFixed")
      end
  end ;;
  modify (set_dom (set_cartTotal (toFixed (grandTotal (cart s)) 2))).

(* prod = None is undefined: the test of find reads prod.id, on the first
   line of a cart that has one. *)
Definition addToCart (prod : option Product) : M unit :=
  s <- get ;;
  match prod, cart s with
  | None, _ :: _ => throw (TypeError "id")
  | None, [] => modify (set_cart [{| product := None; qty := 1 |}])
  | Some p, c =>
      match find (has_id (id p)) c with
      | Some item =>
          modify (set_cart
                    (update_first (has_id (id p))
                                  (fun i => set_qty (qty i + 1) i) c))
      | None =>
          modify (set_cart (c ++ [{| product := Some p; qty := 1 |}]))
      end
  end ;;
  saveCart ;;
  updateCartUI ;;
  toast "Producto agregado" ;;
  openCart.

Definition changeQty (n : Z) (q : Z) : M unit :=
  s <- get ;;
  match find (has_id n) (cart s) with
  | None => ret tt
  | Some item =>
      modify (set_cart
                (update_first (has_id n)
                              (fun i => set_qty (Z.max 1 (qty i + q)) i)
                              (cart s))) ;;
      saveCart ;;
      updateCartUI
  end.

Definition removeFromCart (n : Z) : M unit :=
  s <- get ;;
  modify (set_cart (filter (fun i => negb (has_id n i)) (cart s))) ;;
  saveCart ;;
  updateCartUI.

Definition i_acute : ascii := "237"%char.
Definition a_acute : ascii := "225"%char.
Definition inverted_question : ascii := "191"%char.

(* confirm() returns what the user answers. *)
Definition clearCart (answer : bool) : M unit :=
  s <- get ;;
  match cart s with
  | [] => ret tt
  | _ =>
      emit (Confirm (String inverted_question "Vaciar carrito?")) ;;
      if negb answer then ret tt
      else
        modify (set_cart []) ;;
        saveCart ;;
        updateCartUI
  end.

Definition checkout : M unit :=
  s <- get ;;
  match cart s with
  | [] => emit (Alert ("Carrito vac" ++ String i_acute "o"))
  | _ =>
      emit (Alert "Compra realizada (demo)") ;;
      modify (set_cart []) ;;
      saveCart ;;
      updateCartUI ;;
      closeCart
  end.

(* ---------- Manejo de productos (delegacion) ---------- *)

(* The clicked element: data_id is Number(e.target.dataset.id), an integer,
   or None for NaN (no data-id, or one that is not a number). *)
Record Target := {
  data_id : option Z;
  data_action : option string;
  classList : list string
}.

Definition contains (cls : string) (e : Target) : bool :=
  existsb (String.eqb cls) (classList e).

Definition when (b : bool) (m : M unit) : M unit := if b then m else ret tt.

Definition handleProductClick (e : Target) : M unit :=
  match data_id e with
  | None => ret tt
  | Some n =>
      if n =? 0 then ret tt
      else
        s <- get ;;
        when (contains "add" e)
             (addToCart (find (fun p => id p =? n) (products s))) ;;
        when (contains "details" e)
             (emit (WindowOpen (PRODUCTS_URL ++ "/" ++ toString (of_Z n))))
  end.

Definition action_is (a : string) (e : Target) : bool :=
  match data_action e with
  | Some b => String.eqb b a
  | None => false
  end.

Definition handleCartClick (e : Target) : M unit :=
  match data_id e with
  | None => ret tt
  | Some n =>
      if n =? 0 then ret tt
      else
        when (action_is "inc" e) (changeQty n 1) ;;
        when (action_is "dec" e) (changeQty n (-1)) ;;
        when (action_is "remove" e) (removeFromCart n)
  end.

(* ---------- Formulario de contacto ---------- *)

Record ContactData := {
  name : string;
  email : string;
  message : string
}.

(* [^\s@] *)
Definition email_part (c : ascii) : bool :=
  negb (is_white_space c || Ascii.eqb c "@").

(* /^[^\s@]+@[^\s@]+\.[^\s@]+$/ *)
Definition email_regex : RegExp.regex :=
  RegExp.Cat (RegExp.Plus (RegExp.Class email_part))
    (RegExp.Cat (RegExp.Lit "@")
       (RegExp.Cat (RegExp.Plus (RegExp.Class email_part))
          (RegExp.Cat (RegExp.Lit ".")
             (RegExp.Plus (RegExp.Class email_part))))).

Definition msg_name : string := "El nombre debe tener al menos 2 caracteres".
Definition msg_email : string := "Email inv" ++ String a_acute "lido".
Definition msg_message : string := "Mensaje demasiado corto".

(* The object e, its properties in the order they were set. *)
Definition validateContact (d : ContactData) : list (string * string) :=
  ((if (String.length (name d) <? 2)%nat then [("name", msg_name)] else [])
   ++ (if negb (RegExp.test email_regex (email d))
       then [("email", msg_email)] else [])
   ++ (if (String.length (message d) <? 10)%nat
       then [("message", msg_message)] else []))%list.

(* The contact form: the values typed in, the messages drawn by
   showFormErrors and whether the success notice is hidden. *)
Record ContactForm := {
  name_value : string;
  email_value : string;
  message_value : string;
  form_errors : list (string * string);
  contactSuccess_hidden : bool
}.

Definition form_data (f : ContactForm) : ContactData :=
  {| name := trim (name_value f);
     email := trim (email_value f);
     message := trim (message_value f) |}.

Definition handleContactForm (f : ContactForm) : ContactForm :=
  let errors := validateContact (form_data f) in
  match errors with
  | _ :: _ =>
      {| name_value := name_value f; email_value := email_value f;
         message_value := message_value f;
         form_errors := errors; contactSuccess_hidden := true |}
  | [] =>
      {| name_value := ""; email_value := ""; message_value := "";
         form_errors := []; contactSuccess_hidden := false |}
  end.

(* ---------- Init ---------- *)

(* Of init(), the part that acts on the modelled state. *)
Definition init : M unit := updateCartUI.

(* ------------------------------------------------------------------ *)
(* The cart engine as a transition system.                             *)

Inductive Op :=
  | Add (p : Product)
  | ChangeQty (n q : Z)
  | Remove (n : Z)
  | Clear (answer : bool)
  | Checkout.

Definition perform (o : Op) : M unit :=
  match o with
  | Add p => addToCart (Some p)
  | ChangeQty n q => changeQty n q
  | Remove n => removeFromCart n
  | Clear answer => clearCart answer
  | Checkout => checkout
  end.

(* The states the page reaches from an empty cart. *)
Inductive reachable : State -> Prop :=
  | reach_init s0 s log :
      cart s0 = [] -> init s0 = Return tt s log -> reachable s
  | reach_step s o s' log :
      reachable s -> perform o s = Return tt s' log -> reachable s'.

Fixpoint repeat_op (n : nat) (m : M unit) : M unit :=
  match n with
  | O => ret tt
  | S n' => m ;; repeat_op n' m
  end.

(* The state a call ends in, whether it returns or throws. *)
Definition final {A} (o : Outcome A) : State :=
  match o with
  | Return _ s _ | Throw _ s _ => s
  end.

Definition effects {A} (o : Outcome A) : list Effect :=
  match o with
  | Return _ _ l | Throw _ _ l => l
  end.

Definition returns {A} (o : Outcome A) : bool :=
  match o with
  | Return _ _ _ => true
  | Throw _ _ _ => false
  end.

(* A line that carries the fields of a product. *)
Definition complete (i : CartLine) : bool :=
  match product i with
  | Some _ => true
  | None => false
  end.

Definition new_line (p : Product) (n : Z) : CartLine :=
  {| product := Some p; qty := n |}.

(* The state saveCart and updateCartUI leave. *)
Definition saved (s : State) : State :=
  set_storage (JSON.stringify (cart_value (cart s))) s.

Definition views (c : list CartLine) : list LineView :=
  match render_lines c with
  | Some v => v
  | None => []
  end.

Definition drawn (s : State) : State :=
  set_dom (fun d =>
             set_cartTotal (toFixed (grandTotal (cart s)) 2)
               (set_cartItems (views (cart s))
                  (set_cartCount (itemCount (cart s)) d))) s.

Definition synced (s : State) : State := drawn (saved s).

(* Sums as the specification writes them. *)
Fixpoint sum_qty (c : list CartLine) : Z :=
  match c with
  | [] => 0
  | i :: c' => qty i + sum_qty c'
  end.



(* The cart addToCart leaves for a product. *)
Definition added (p : Product) (c : list CartLine) : list CartLine :=
  match find (has_id (id p)) c with
  | Some _ => update_first (has_id (id p)) (fun i => set_qty (qty i + 1) i) c
  | None => c ++ [new_line p 1]
  end.


(* The cart changeQty leaves when it finds the line, and the cart
   removeFromCart leaves. *)
Definition changed (n q : Z) (c : list CartLine) : list CartLine :=
  update_first (has_id n) (fun i => set_qty (Z.max 1 (qty i + q)) i) c.

Definition removed (n : Z) (c : list CartLine) : list CartLine :=
  filter (fun i => negb (has_id n i)) c.

Fixpoint run (ops : list Op) : M unit :=
  match ops with
  | [] => ret tt
  | o :: ops' => perform o ;; run ops'
  end.

(* The cart invariant of the data model: every line carries its product,
   no two lines share an id, every quantity is at least 1. *)
Definition cart_ok (c : list CartLine) : Prop :=
  forallb complete c = true /\
  NoDup (map line_id c) /\
  Forall (fun i => 1 <= qty i) c.


(* ---------- Fixtures ---------- *)

Definition redShirt : Product :=
  {| id := 1; title := "Red Shirt"; price := of_decimal false 1999 (-2);
     description := ""; category := "clothing"; image := "" |}.

Definition blueHat : Product :=
  {| id := 2; title := "Blue Hat"; price := of_decimal false 95 (-1);
     description := ""; category := "clothing"; image := "" |}.

(* The page before any script has run: nothing stored, the cart panel
   hidden. *)
Definition blank : State :=
  {| products := []; filtered := []; cart := []; localStorage_cart := None;
     dom := {| search_value := ""; categoryFilter_value := "all";
               productList := []; cartPanel_hidden := true;
               cartToggle_expanded := false; cartCount := 0;
               cartItems := []; cartTotal := "" |} |}.

Definition loaded (l : list Product) (s : State) : State :=
  {| products := l; filtered := l; cart := cart s;
     localStorage_cart := localStorage_cart s;
     dom := set_productList l (dom s) |}.

(* A session: red shirt twice, blue hat once, a decrement at quantity 1
   and the removal of an id that has no line. *)
Definition demo_ops : list Op :=
  [Add redShirt; Add redShirt; Add blueHat; ChangeQty 2 (-1); Remove 7].

Definition demo_state : State := final (run demo_ops (final (init blank))).

(* The cart of the scenario of the specification. *)
Definition fixture_cart : list CartLine :=
  [new_line redShirt 2; new_line blueHat 1].

(* The line { qty: 1 } that addToCart(undefined) pushes on an empty cart. *)
Definition orphan_line : CartLine := {| product := None; qty := 1 |}.

(* JSON texts are written here with ' where they have the double quote. *)
Definition dq (s : string) : string :=
  concat_map (fun c => if Ascii.eqb c "'" then String dquote "" else String c "") s.

Definition add_button (n : option Z) : Target :=
  {| data_id := n; data_action := None; classList := ["add"%string] |}.

(* ---------- The filter, as the specification words it ---------- *)






(* The test applyFilters applies to a product. *)
Definition shown (d : Dom) (p : Product) : bool :=
  let q := toLowerCase (trim (search_value d)) in
  let cat := categoryFilter_value d in
  (String.eqb cat "all" || String.eqb (category p) cat) &&
  (includes (toLowerCase (title p)) q ||
   includes (toLowerCase (description p)) q).

(* ---------- The contact form, as the specification words it ---------- *)

(* The message validateContact has for a field, if any. *)
Fixpoint error_for (field : string) (e : list (string * string)) : option string :=
  match e with
  | [] => None
  | (k, v) :: e' => if String.eqb field k then Some v else error_for field e'
  end.

(* A part of an address: not empty, every code unit accepted by ok. *)
Definition part_of (ok : ascii -> bool) (x : string) : Prop :=
  x <> ""%string /\ all_chars ok x = true.

(* local@domain.tld with parts made of the code units ok accepts. *)
Definition address_shape (ok : ascii -> bool) (s : string) : Prop :=
  exists l d t,
    s = (l ++ "@" ++ d ++ "." ++ t)%string /\
    part_of ok l /\ part_of ok d /\ part_of ok t.

(* The shape in the words of the specification: parts without white
   space. *)
Definition spec_email_shape : string -> Prop :=
  address_shape (fun c => negb (is_white_space c)).

(* The shape the regular expression of validateContact accepts: parts
   without white space and without @. *)
Definition email_shape : string -> Prop := address_shape email_part.

Definition contact (n e m : string) : ContactForm :=
  {| name_value := n; email_value := e; message_value := m;
     form_errors := []; contactSuccess_hidden := true |}.

(* ---------- Persistence, as the specification words it ---------- *)

(* A cart whose lines carry their product and whose numbers are storable. *)
Definition valid_line (i : CartLine) : Prop :=
  exists p, product i = Some p /\
            JSON.storable (of_Z (id p)) /\
            JSON.storable (price p) /\
            JSON.storable (of_Z (qty i)).

Definition valid_cart (c : list CartLine) : Prop := Forall valid_line c.

(* ---------- toFixed(2), as the specification words it ---------- *)




(* The state after the scenario of the specification: product 1 added
   twice, product 2 once. *)
Definition scenario_state : State :=
  final (run [Add redShirt; Add redShirt; Add blueHat] (final (init blank))).



(* ------------------------------------------------------------------ *)
(* Further definitions: the rest of app.js and the notions its          *)
(* properties are stated with.                                         *)

(* The stored slot holds the text of the cart. *)
Definition stored_in_sync (s : State) : Prop :=
  localStorage_cart s = Some (JSON.stringify (cart_value (cart s))).

(* The products the drawn cards stand for are products of the catalog. *)
Definition cards_from_catalog (s : State) : Prop :=
  incl (productList (dom s)) (products s).

(* A cart button: data-action and data-id, no class. *)
Definition cart_button (action : string) (n : option Z) : Target :=
  {| data_id := n; data_action := Some action; classList := [] |}.

Definition details_button (n : option Z) : Target :=
  {| data_id := n; data_action := None; classList := ["details"%string] |}.


(* The code units escape replaces, but for the ampersand. *)
Definition is_markup (c : ascii) : bool :=
  Ascii.eqb c "<" || Ascii.eqb c ">" || Ascii.eqb c dquote || Ascii.eqb c "'".

(* The code units escape leaves as they are. *)
Definition is_plain (c : ascii) : bool :=
  negb (is_markup c || Ascii.eqb c "&").

Fixpoint count_char (c : ascii) (s : string) : nat :=
  match s with
  | String a r => (if Ascii.eqb a c then 1 else 0) + count_char c r
  | EmptyString => 0
  end.

(* ---------- debounce ---------- *)

Module Debounce.
Section Model.

(* The arguments of one call of the debounced function. *)
Variable A : Type.

(* The timers set and neither fired nor cleared, each with the
   arguments its callback passes to fn, and the handle the next
   setTimeout returns. *)
Record Clock := {
  next_handle : nat;
  waiting : list (nat * A)
}.

(* The variable t of the closure (None: undefined) and the clock. *)
Record Closure := {
  t : option nat;
  clock : Clock
}.

Definition setTimeout (a : A) (k : Clock) : nat * Clock :=
  (next_handle k,
   {| next_handle := S (next_handle k);
      waiting := waiting k ++ [(next_handle k, a)] |}).

(* clearTimeout(undefined) and clearTimeout of a handle that is not
   waiting do nothing. *)
Definition clearTimeout (h : option nat) (k : Clock) : Clock :=
  match h with
  | None => k
  | Some n =>
      {| next_handle := next_handle k;
         waiting := filter (fun e => negb (Nat.eqb (fst e) n)) (waiting k) |}
  end.

(* (...a) => { clearTimeout(t); t = setTimeout(() => fn(...a), d); } *)
Definition call (a : A) (c : Closure) : Closure :=
  let '(h, k) := setTimeout a (clearTimeout (t c) (clock c)) in
  {| t := Some h; clock := k |}.

(* The timer h comes due: its callback, if it is waiting, calls fn with
   the arguments it holds.  The result lists the calls of fn. *)
Definition fire (h : nat) (c : Closure) : Closure * list A :=
  match find (fun e => Nat.eqb (fst e) h) (waiting (clock c)) with
  | Some (_, a) =>
      ({| t := t c; clock := clearTimeout (Some h) (clock c) |}, [a])
  | None => (c, [])
  end.

Inductive Event :=
  | Call (a : A)
  | Fire (h : nat).

Fixpoint play (events : list Event) (c : Closure) : Closure * list A :=
  match events with
  | [] => (c, [])
  | Call a :: rest => play rest (call a c)
  | Fire h :: rest =>
      let '(c1, out1) := fire h c in
      let '(c2, out2) := play rest c1 in
      (c2, (out1 ++ out2)%list)
  end.

(* debounce(fn, d) before its first call. *)
Definition fresh (first_handle : nat) : Closure :=
  {| t := None; clock := {| next_handle := first_handle; waiting := [] |} |}.

(* At most one timer waits; it is the one t holds. *)
Definition tidy (c : Closure) : Prop :=
  match waiting (clock c) with
  | [] => True
  | [(h, _)] => t c = Some h /\ h < next_handle (clock c)
  | _ => False
  end%nat.

Definition calls_of (events : list Event) : list A :=
  flat_map (fun e => match e with Call a => [a] | Fire _ => [] end) events.

End Model.

Arguments next_handle {A} _.
Arguments waiting {A} _.
Arguments t {A} _.
Arguments clock {A} _.
Arguments setTimeout {A} _ _.
Arguments clearTimeout {A} _ _.
Arguments call {A} _ _.
Arguments fire {A} _ _.
Arguments Call {A} _.
Arguments Fire {A} _.
Arguments play {A} _ _.
Arguments fresh {A} _.
Arguments tidy {A} _.
Arguments calls_of {A} _.

End Debounce.

(* The first list is the second with some of its elements left out. *)
Inductive subsequence {A : Type} : list A -> list A -> Prop :=
  | subsequence_nil : subsequence [] []
  | subsequence_keep x l1 l2 : subsequence l1 l2 -> subsequence (x :: l1) (x :: l2)
  | subsequence_skip x l1 l2 : subsequence l1 l2 -> subsequence l1 (x :: l2).

(* A product with the id 0 and a cart that holds it. *)
Definition freeSample : Product :=
  {| id := 0; title := "Free Sample"; price := of_Z 0;
     description := ""; category := "clothing"; image := "" |}.

Definition sample_state : State :=
  loaded [freeSample; redShirt] (set_cart [new_line freeSample 3] blank).

(* A product whose title holds markup, in a cart. *)
Definition boldShirt : Product :=
  {| id := 7; title := "<b>Shirt</b> & 'Tie'"; price := of_Z 5;
     description := ""; category := "clothing"; image := "a.png" |}.

Definition bold_state : State := set_cart [new_line boldShirt 2] blank.

(* aria-expanded of the toggle says whether the panel is shown. *)
Definition aria_agrees (s : State) : Prop :=
  cartToggle_expanded (dom s) = negb (cartPanel_hidden (dom s)).

(* A call that opens no window and leaves the catalog and the drawn cards
   as they are, whether it returns or throws. *)
Definition keeps_to_the_cart {A} (m : M A) : Prop :=
  forall s,
    (forall u, ~ In (WindowOpen u) (effects (m s))) /\
    products (final (m s)) = products s /\
    filtered (final (m s)) = filtered s /\
    productList (dom (final (m s))) = productList (dom s).

(* The address the details button opens. *)
Definition details_url (n : Z) : string :=
  PRODUCTS_URL ++ "/" ++ toString (of_Z n).

Open Scope list_scope.
(* ------------------------------------------------------------------ *)
(* Facts about lists of lines.                                         *)

Section CartLists.

Implicit Types (c : list CartLine) (i : CartLine) (p : Product) (n : Z).

Lemma has_id_new_line p n m : has_id m (new_line p n) = (id p =? m).
Proof. reflexivity. Qed.

Lemma has_id_line_id n i : has_id n i = true <-> line_id i = Some n.
Proof.
  unfold has_id. destruct (line_id i) as [m|]; split; try discriminate.
  - intros H. apply Z.eqb_eq in H. now subst.
  - intros H. injection H as ->. apply Z.eqb_refl.
Qed.

Lemma find_none_filter c n :
  find (has_id n) c = None <-> filter (has_id n) c = [].
Proof.
  induction c as [|i c IH]; simpl; [tauto|].
  destruct (has_id n i); [split; discriminate | exact IH].
Qed.

Lemma find_none_not_in c n :
  find (has_id n) c = None <-> ~ In (Some n) (map line_id c).
Proof.
  induction c as [|i c IH]; simpl; [tauto|].
  destruct (has_id n i) eqn:E.
  - apply has_id_line_id in E. split; [discriminate | intros H; elim H; now left].
  - rewrite IH. split; [intros H [H1|H1]; [|tauto] | tauto].
    apply has_id_line_id in H1. congruence.
Qed.

Lemma update_first_absent {A} (f : A -> bool) g (l : list A) :
  find f l = None -> update_first f g l = l.
Proof.
  induction l as [|x l IH]; simpl; [reflexivity|].
  destruct (f x); [discriminate | intros H; now rewrite IH].
Qed.

Lemma map_line_id_update_first c n (g : CartLine -> CartLine) :
  (forall i, line_id (g i) = line_id i) ->
  map line_id (update_first (has_id n) g c) = map line_id c.
Proof.
  intros Hg. induction c as [|i c IH]; simpl; [reflexivity|].
  destruct (has_id n i); simpl; [now rewrite Hg | now rewrite IH].
Qed.

Lemma complete_update_first c n (g : CartLine -> CartLine) :
  (forall i, complete (g i) = complete i) ->
  forallb complete (update_first (has_id n) g c) = forallb complete c.
Proof.
  intros Hg. induction c as [|i c IH]; simpl; [reflexivity|].
  destruct (has_id n i); simpl; [now rewrite Hg | now rewrite IH].
Qed.

Lemma complete_filter c (f : CartLine -> bool) :
  forallb complete c = true -> forallb complete (filter f c) = true.
Proof.
  induction c as [|i c IH]; simpl; [reflexivity|].
  intros H. apply andb_true_iff in H as [Hi Hc].
  destruct (f i); simpl; [rewrite Hi|]; auto.
Qed.

Lemma render_lines_complete c :
  forallb complete c = true -> render_lines c <> None.
Proof.
  induction c as [|i c IH]; simpl; [discriminate|].
  unfold complete at 1, render_line. destruct (product i); [|discriminate].
  simpl. intros H. destruct (render_lines c); [discriminate | now apply IH].
Qed.

Lemma render_lines_some c l :
  render_lines c = Some l -> forallb complete c = true.
Proof.
  revert l. induction c as [|i c IH]; intros l; simpl; [reflexivity|].
  unfold complete at 1, render_line. destruct (product i); [|discriminate].
  destruct (render_lines c); [|discriminate]. intros _. now apply (IH l0).
Qed.

Lemma render_lines_views c :
  forallb complete c = true -> render_lines c = Some (views c).
Proof.
  intros H. apply render_lines_complete in H. unfold views.
  now destruct (render_lines c).
Qed.

End CartLists.

(* ------------------------------------------------------------------ *)
(* What each operation of the cart returns.                            *)

Section Runs.

Implicit Types (s : State) (c : list CartLine) (p : Product).

Lemma saveCart_run s :
  saveCart s =
  Return tt (saved s) [SetItem "cart" (JSON.stringify (cart_value (cart s)))].
Proof. reflexivity. Qed.

Lemma updateCartUI_run s :
  forallb complete (cart s) = true -> updateCartUI s = Return tt (drawn s) [].
Proof.
  intros H. unfold updateCartUI, drawn, bind, get, modify.
  destruct (cart s) as [|i c] eqn:E.
  - reflexivity.
  - rewrite (render_lines_views _ H). reflexivity.
Qed.

Lemma updateCartUI_throws s :
  cart s <> [] -> forallb complete (cart s) = false ->
  exists s', updateCartUI s = Throw (TypeError "toFixed") s' []
             /\ cart s' = cart s
             /\ localStorage_cart s' = localStorage_cart s.
Proof.
  intros Hne H. unfold updateCartUI, bind, get, modify, throw.
  destruct (cart s) as [|i c] eqn:E; [congruence|].
  destruct (render_lines (i :: c)) eqn:R.
  - apply render_lines_some in R. congruence.
  - eexists. split; [reflexivity|]. simpl. now rewrite E.
Qed.

Lemma complete_added p c :
  forallb complete c = true -> forallb complete (added p c) = true.
Proof.
  intros H. unfold added. destruct (find _ c).
  - now rewrite complete_update_first.
  - rewrite forallb_app, H. reflexivity.
Qed.

Lemma addToCart_run s p :
  forallb complete (cart s) = true ->
  addToCart (Some p) s =
  Return tt
    (set_dom (set_cartPanel false true)
       (synced (set_cart (added p (cart s)) s)))
    [SetItem "cart" (JSON.stringify (cart_value (added p (cart s))));
     Toast "Producto agregado"].
Proof.
  intros H. pose proof (complete_added p _ H) as H'.
  unfold addToCart, bind at 1, get.
  assert (forall c', forallb complete c' = true ->
    (saveCart ;; updateCartUI ;; toast "Producto agregado" ;; openCart)
      (set_cart c' s) =
    Return tt (set_dom (set_cartPanel false true) (synced (set_cart c' s)))
      [SetItem "cart" (JSON.stringify (cart_value c')); Toast "Producto agregado"])
    as K.
  { intros c' Hc'. unfold bind at 1. rewrite saveCart_run.
    unfold bind at 1. rewrite updateCartUI_run by exact Hc'. reflexivity. }
  unfold added in *. unfold bind at 1.
  destruct (find (has_id (id p)) (cart s)); unfold modify; rewrite K; auto.
Qed.



Lemma changeQty_absent s n q :
  find (has_id n) (cart s) = None -> changeQty n q s = Return tt s [].
Proof.
  intros H. unfold changeQty, bind, get. now rewrite H.
Qed.

Lemma complete_changed n q c :
  forallb complete (changed n q c) = forallb complete c.
Proof. now apply complete_update_first. Qed.

Lemma changeQty_run s n q i :
  find (has_id n) (cart s) = Some i ->
  forallb complete (cart s) = true ->
  changeQty n q s =
  Return tt (synced (set_cart (changed n q (cart s)) s))
    [SetItem "cart" (JSON.stringify (cart_value (changed n q (cart s))))].
Proof.
  intros H Hc. unfold changeQty, bind at 1, get. rewrite H.
  unfold bind at 1, modify. unfold bind at 1. rewrite saveCart_run.
  rewrite updateCartUI_run; [reflexivity|].
  change (forallb complete (changed n q (cart s)) = true).
  now rewrite complete_changed.
Qed.

Lemma changeQty_cart s n q :
  cart (final (changeQty n q s)) = changed n q (cart s).
Proof.
  unfold changeQty, bind at 1, get.
  destruct (find (has_id n) (cart s)) eqn:H.
  - unfold bind at 1, modify. unfold bind at 1. rewrite saveCart_run.
    fold (changed n q (cart s)).
    destruct (forallb complete (changed n q (cart s))) eqn:Hc.
    + rewrite updateCartUI_run; [reflexivity | exact Hc].
    + destruct (updateCartUI_throws (saved (set_cart (changed n q (cart s)) s)))
        as (s' & E & Hs' & _); [| exact Hc | rewrite E; exact Hs'].
      change (changed n q (cart s) <> []). intros E. rewrite E in Hc.
      discriminate.
  - simpl. unfold changed. now rewrite update_first_absent.
Qed.

Lemma removeFromCart_run s n :
  forallb complete (cart s) = true ->
  removeFromCart n s =
  Return tt (synced (set_cart (removed n (cart s)) s))
    [SetItem "cart" (JSON.stringify (cart_value (removed n (cart s))))].
Proof.
  intros Hc. unfold removeFromCart, bind at 1, get.
  unfold bind at 1, modify. unfold bind at 1. rewrite saveCart_run.
  rewrite updateCartUI_run; [reflexivity|].
  change (forallb complete (removed n (cart s)) = true).
  now apply complete_filter.
Qed.

Lemma clearCart_empty s answer :
  cart s = [] -> clearCart answer s = Return tt s [].
Proof.
  intros H. unfold clearCart, bind, get. now rewrite H.
Qed.

Lemma clearCart_declined s :
  cart s <> [] ->
  clearCart false s =
  Return tt s [Confirm (String inverted_question "Vaciar carrito?")].
Proof.
  intros H. unfold clearCart, bind at 1, get.
  destruct (cart s); [congruence | reflexivity].
Qed.

Lemma clearCart_confirmed s :
  cart s <> [] ->
  clearCart true s =
  Return tt (synced (set_cart [] s))
    [Confirm (String inverted_question "Vaciar carrito?"); SetItem "cart" "[]"].
Proof.
  intros H. unfold clearCart, bind at 1, get.
  destruct (cart s); [congruence | reflexivity].
Qed.

Lemma checkout_empty s :
  cart s = [] ->
  checkout s = Return tt s [Alert ("Carrito vac" ++ String i_acute "o")].
Proof.
  intros H. unfold checkout, bind, get. now rewrite H.
Qed.

Lemma checkout_run s :
  cart s <> [] ->
  checkout s =
  Return tt (set_dom (set_cartPanel true false) (synced (set_cart [] s)))
    [Alert "Compra realizada (demo)"; SetItem "cart" "[]"].
Proof.
  intros H. unfold checkout, bind at 1, get.
  destruct (cart s); [congruence | reflexivity].
Qed.

End Runs.


(* ------------------------------------------------------------------ *)
(* The invariant of the cart.                                          *)

Section Invariant.

Implicit Types (s : State) (c : list CartLine) (p : Product).

Lemma cart_ok_nil : cart_ok [].
Proof. repeat split; constructor. Qed.

Lemma cart_ok_added p c : cart_ok c -> cart_ok (added p c).
Proof.
  intros (Hc & Hd & Hq). split; [now apply complete_added|].
  unfold added. destruct (find (has_id (id p)) c) eqn:F.
  - split.
    + rewrite map_line_id_update_first; auto.
    + induction Hq as [|i c Hi Hq IH]; simpl in *; [constructor|].
      destruct (has_id (id p) i).
      * constructor; [simpl; lia | exact Hq].
      * apply andb_true_iff in Hc as [_ Hc]. inversion Hd; subst.
        constructor; [exact Hi | now apply IH].
  - split.
    + rewrite map_app. simpl.
      apply find_none_not_in in F.
      apply NoDup_app; [exact Hd | repeat constructor; intros [] | ].
      intros x Hx [<-|[]]. exact (F Hx).
    + apply Forall_app. split; [exact Hq|]. repeat constructor. simpl. lia.
Qed.

Lemma cart_ok_changed n q c : cart_ok c -> cart_ok (changed n q c).
Proof.
  intros (Hc & Hd & Hq). unfold changed. repeat split.
  - now rewrite complete_update_first.
  - now rewrite map_line_id_update_first.
  - clear Hc Hd. induction Hq as [|i c Hi Hq IH]; simpl; [constructor|].
    destruct (has_id n i); constructor; auto. simpl. lia.
Qed.

Lemma cart_ok_removed n c : cart_ok c -> cart_ok (removed n c).
Proof.
  intros (Hc & Hd & Hq). unfold removed. repeat split.
  - now apply complete_filter.
  - clear Hc Hq. induction c as [|i c IH]; simpl; [constructor|].
    inversion Hd as [|x l Hx Hl]; subst.
    destruct (has_id n i); simpl; [now apply IH|].
    constructor; [|now apply IH].
    intros H. apply Hx. apply in_map_iff in H as (j & Hj & Hin).
    apply filter_In in Hin as [Hin _]. apply in_map_iff. now exists j.
  - apply Forall_forall. intros i Hi. apply filter_In in Hi as [Hi _].
    rewrite Forall_forall in Hq. now apply Hq.
Qed.

(* Every operation keeps the invariant and returns. *)
Lemma perform_ok o s :
  cart_ok (cart s) ->
  exists s' log, perform o s = Return tt s' log /\ cart_ok (cart s').
Proof.
  intros H. pose proof H as (Hc & _). destruct o as [p|n q|n|answer|]; simpl.
  - rewrite addToCart_run by exact Hc. do 2 eexists. split; [reflexivity|].
    now apply cart_ok_added.
  - destruct (find (has_id n) (cart s)) eqn:F.
    + rewrite (changeQty_run _ _ _ _ F Hc). do 2 eexists.
      split; [reflexivity|]. now apply cart_ok_changed.
    + rewrite changeQty_absent by exact F. now do 2 eexists.
  - rewrite removeFromCart_run by exact Hc. do 2 eexists.
    split; [reflexivity|]. now apply cart_ok_removed.
  - destruct (cart s) eqn:E.
    + rewrite clearCart_empty by exact E. do 2 eexists. split; [reflexivity|].
      now rewrite E.
    + destruct answer.
      * rewrite clearCart_confirmed by congruence. do 2 eexists.
        split; [reflexivity | apply cart_ok_nil].
      * rewrite clearCart_declined by congruence. do 2 eexists.
        split; [reflexivity | now rewrite E].
  - destruct (cart s) eqn:E.
    + rewrite checkout_empty by exact E. do 2 eexists. split; [reflexivity|].
      now rewrite E.
    + rewrite checkout_run by congruence. do 2 eexists.
      split; [reflexivity | apply cart_ok_nil].
Qed.

Lemma init_run s0 : cart s0 = [] -> init s0 = Return tt (drawn s0) [].
Proof.
  intros E. unfold init. apply updateCartUI_run. now rewrite E.
Qed.

Lemma reachable_cart_ok s : reachable s -> cart_ok (cart s).
Proof.
  induction 1 as [s0 s log E I | s o s' log R IH P].
  - rewrite init_run in I by exact E. injection I as <- _.
    change (cart_ok (cart s0)). rewrite E. apply cart_ok_nil.
  - destruct (perform_ok o s IH) as (s1 & l1 & P1 & H1).
    rewrite P in P1. injection P1 as -> _. exact H1.
Qed.

Lemma reachable_run s0 ops s1 s l1 l :
  cart s0 = [] -> init s0 = Return tt s1 l1 ->
  run ops s1 = Return tt s l -> reachable s.
Proof.
  intros E I. assert (R : reachable s1) by (eapply reach_init; eauto).
  clear E I. revert s1 l R. induction ops as [|o ops IH]; intros s1 l R.
  - simpl. unfold ret. intros H. injection H as <- _. exact R.
  - simpl. unfold bind.
    destruct (perform o s1) as [[] s2 l2|] eqn:P; [|discriminate].
    destruct (run ops s2) as [[] s3 l3|] eqn:Q; [|discriminate].
    intros H. injection H as <- _. eapply IH; [|exact Q].
    eapply reach_step; eauto.
Qed.

Lemma returns_eq (o : Outcome unit) :
  returns o = true -> o = Return tt (final o) (effects o).
Proof. destruct o as [[] s l|]; [reflexivity | discriminate]. Qed.

Lemma reachable_final s0 ops :
  cart s0 = [] ->
  returns (init s0) = true ->
  returns (run ops (final (init s0))) = true ->
  reachable (final (run ops (final (init s0)))).
Proof.
  intros E I H. eapply reachable_run; [exact E | |].
  - apply returns_eq, I.
  - apply returns_eq, H.
Qed.

(* No two lines of a cart without duplicate ids answer to one id. *)
Lemma one_line_per_id c n :
  NoDup (map line_id c) -> (List.length (filter (has_id n) c) <= 1)%nat.
Proof.
  induction c as [|i c IH]; simpl; [lia|].
  intros H. inversion H as [|x l Hx Hl]; subst.
  destruct (has_id n i) eqn:E; [|now apply IH].
  simpl. apply has_id_line_id in E. rewrite E in Hx.
  apply find_none_not_in in Hx. apply find_none_filter in Hx.
  rewrite Hx. simpl. lia.
Qed.

End Invariant.

(* ------------------------------------------------------------------ *)
(* Adding and removing one product.                                    *)

Section AddRemove.

Implicit Types (s : State) (c : list CartLine) (p : Product).

Lemma added_fresh p c :
  find (has_id (id p)) c = None -> added p c = c ++ [new_line p 1].
Proof. intros H. unfold added. now rewrite H. Qed.

Lemma find_app_absent {A} (f : A -> bool) (l l' : list A) :
  find f l = None -> find f (l ++ l') = find f l'.
Proof.
  induction l as [|x l IH]; simpl; [reflexivity|].
  destruct (f x); [discriminate | exact IH].
Qed.

Lemma update_first_app_absent {A} (f : A -> bool) g (l l' : list A) :
  find f l = None ->
  update_first f g (l ++ l') = l ++ update_first f g l'.
Proof.
  induction l as [|x l IH]; simpl; [reflexivity|].
  destruct (f x); [discriminate | intros H; now rewrite IH].
Qed.

Lemma added_again p c k :
  find (has_id (id p)) c = None ->
  added p (c ++ [new_line p k]) = c ++ [new_line p (k + 1)].
Proof.
  intros H. unfold added.
  rewrite (find_app_absent _ _ _ H), (update_first_app_absent _ _ _ _ H).
  simpl. rewrite has_id_new_line, Z.eqb_refl. reflexivity.
Qed.

Lemma filter_fresh p c k :
  find (has_id (id p)) c = None ->
  filter (has_id (id p)) (c ++ [new_line p k]) = [new_line p k].
Proof.
  intros H. rewrite filter_app. apply find_none_filter in H. rewrite H.
  simpl. rewrite has_id_new_line, Z.eqb_refl. reflexivity.
Qed.

Lemma repeat_add_from p c n : forall s k,
  find (has_id (id p)) c = None ->
  forallb complete c = true ->
  cart s = c ++ [new_line p k] ->
  exists s' log,
    repeat_op n (addToCart (Some p)) s = Return tt s' log /\
    cart s' = c ++ [new_line p (k + Z.of_nat n)].
Proof.
  induction n as [|n IH]; intros s k F Hc E.
  - exists s, []. split; [reflexivity|]. now rewrite E, Z.add_0_r.
  - assert (Hs : forallb complete (cart s) = true).
    { rewrite E, forallb_app, Hc. reflexivity. }
    cbn [repeat_op]. unfold bind. rewrite (addToCart_run _ _ Hs).
    edestruct (IH (set_dom (set_cartPanel false true)
                     (synced (set_cart (added p (cart s)) s))) (k + 1))
      as (s' & log & -> & Hs'); [exact F | exact Hc | |].
    + change (added p (cart s) = c ++ [new_line p (k + 1)]).
      rewrite E. now apply added_again.
    + do 2 eexists. split; [reflexivity|]. rewrite Hs'. do 2 f_equal.
      unfold new_line. f_equal. lia.
Qed.

Lemma removed_absent n c :
  find (has_id n) c = None -> removed n c = c.
Proof.
  unfold removed. induction c as [|i c IH]; simpl; [reflexivity|].
  destruct (has_id n i); [discriminate|]. simpl. intros H. now rewrite IH.
Qed.

Lemma find_removed n c : find (has_id n) (removed n c) = None.
Proof.
  unfold removed. induction c as [|i c IH]; simpl; [reflexivity|].
  destruct (has_id n i) eqn:E; simpl; [exact IH|]. now rewrite E.
Qed.

Lemma removeFromCart_cart s n :
  cart (final (removeFromCart n s)) = removed n (cart s).
Proof.
  unfold removeFromCart, bind at 1, get.
  unfold bind at 1, modify. unfold bind at 1. rewrite saveCart_run.
  fold (removed n (cart s)).
  destruct (forallb complete (removed n (cart s))) eqn:Hc.
  - rewrite updateCartUI_run; [reflexivity | exact Hc].
  - destruct (updateCartUI_throws (saved (set_cart (removed n (cart s)) s)))
      as (s' & E & Hs' & _); [| exact Hc | rewrite E; exact Hs'].
    change (removed n (cart s) <> []). intros E. rewrite E in Hc.
    discriminate.
Qed.

End AddRemove.

(* ------------------------------------------------------------------ *)
(* The aggregates of the cart.                                         *)

Section Totals.

Implicit Types (s : State) (c : list CartLine).









End Totals.

(* ------------------------------------------------------------------ *)
(* Strings: substrings and case.                                       *)

Section Strings.

Implicit Types (s t q : string) (c : ascii).

Lemma append_nil_r s : (s ++ "")%string = s.
Proof. induction s as [|c s IH]; simpl; [reflexivity | now rewrite IH]. Qed.

Lemma append_assoc s t q : ((s ++ t) ++ q = s ++ (t ++ q))%string.
Proof. induction s as [|c s IH]; simpl; [reflexivity | now rewrite IH]. Qed.








End Strings.

(* ------------------------------------------------------------------ *)
(* Regular expressions: test decides the denoted language.             *)

Section RegExpFacts.

Import RegExp.

Implicit Types (r : regex) (s t : string) (c : ascii).

Lemma append_eq_nil s t : (s ++ t)%string = ""%string -> s = ""%string /\ t = ""%string.
Proof. destruct s; [simpl; auto | discriminate]. Qed.

Lemma nullable_matches r : nullable r = true <-> matches r "".
Proof.
  split.
  - induction r; simpl; try discriminate; intros H.
    + constructor.
    + apply andb_true_iff in H as [H1 H2].
      change (matches (Cat r1 r2) ("" ++ "")). constructor; auto.
    + apply orb_true_iff in H as [H|H];
        [apply m_alt_l | apply m_alt_r]; auto.
    + constructor.
  - intros H. remember ""%string as e eqn:E.
    induction H; simpl; try discriminate; try reflexivity.
    + apply append_eq_nil in E as [-> ->]. rewrite IHmatches1, IHmatches2; auto.
    + rewrite IHmatches; auto.
    + rewrite IHmatches; auto. apply orb_true_r.
Qed.

Lemma deriv_sound c r : forall s,
  matches (deriv c r) s -> matches r (String c s).
Proof.
  induction r; simpl; intros s H.
  - inversion H.
  - inversion H.
  - destruct (f c) eqn:E; inversion H; subst. now constructor.
  - destruct (nullable r1) eqn:N.
    + inversion H as [| | | ? ? ? H1 | ? ? ? H1 | |]; subst.
      * inversion H1; subst.
        change (matches (Cat r1 r2) (String c s1 ++ s2)). constructor; auto.
      * change (matches (Cat r1 r2) ("" ++ String c s)).
        constructor; [now apply nullable_matches | auto].
    + inversion H; subst.
      change (matches (Cat r1 r2) (String c s1 ++ s2)). constructor; auto.
  - inversion H; subst; [apply m_alt_l | apply m_alt_r]; auto.
  - inversion H; subst.
    change (matches (Star r) (String c s1 ++ s2)). constructor; auto.
Qed.

Lemma deriv_complete c r : forall s,
  matches r (String c s) -> matches (deriv c r) s.
Proof.
  intros s H. remember (String c s) as t eqn:E. revert s E.
  induction H; intros s0 E; simpl; try discriminate.
  - injection E as -> <-. rewrite H. constructor.
  - destruct s1 as [|a s1].
    + simpl in E. subst s2.
      assert (N : nullable r1 = true) by now apply nullable_matches.
      rewrite N. apply m_alt_r. now apply IHmatches2.
    + simpl in E. injection E as -> <-.
      destruct (nullable r1); [apply m_alt_l|]; constructor; auto.
  - apply m_alt_l. auto.
  - apply m_alt_r. auto.
  - destruct s1 as [|a s1].
    + simpl in E. now apply IHmatches2.
    + simpl in E. injection E as -> <-. constructor; auto.
Qed.

Theorem test_matches r s : test r s = true <-> matches r s.
Proof.
  revert r. induction s as [|c s IH]; intros r; simpl.
  - apply nullable_matches.
  - rewrite IH. split; [apply deriv_sound | apply deriv_complete].
Qed.

Lemma matches_lit c s : matches (Lit c) s <-> s = String c "".
Proof.
  split.
  - intros H. inversion H as [|? ? Hc| | | | |]; subst.
    now apply Ascii.eqb_eq in Hc as ->.
  - intros ->. constructor. apply Ascii.eqb_refl.
Qed.

Lemma matches_star_class f s :
  matches (Star (Class f)) s <-> all_chars f s = true.
Proof.
  split.
  - intros H. remember (Star (Class f)) as r eqn:E.
    induction H; try discriminate; [reflexivity|].
    injection E as ->. inversion H as [|? ? Hc| | | | |]; subst. simpl.
    rewrite Hc. now apply IHmatches2.
  - induction s as [|c s IH]; simpl; intros H; [constructor|].
    apply andb_true_iff in H as [H1 H2].
    change (matches (Star (Class f)) (String c "" ++ s)).
    constructor; [now constructor | auto].
Qed.

Lemma matches_plus_class f s :
  matches (Plus (Class f)) s <-> part_of f s.
Proof.
  unfold Plus, part_of. split.
  - intros H. inversion H as [| |? ? s1 s2 H1 H2| | | |]; subst.
    inversion H1 as [|? ? Hc| | | | |]; subst.
    apply matches_star_class in H2. simpl. rewrite Hc, H2.
    split; [discriminate | reflexivity].
  - intros [Hne H]. destruct s as [|c s]; [congruence|].
    simpl in H. apply andb_true_iff in H as [H1 H2].
    change (matches (Cat (Class f) (Star (Class f))) (String c "" ++ s)).
    constructor; [now constructor | now apply matches_star_class].
Qed.

Lemma email_regex_shape s : test email_regex s = true <-> email_shape s.
Proof.
  rewrite test_matches. unfold email_regex, email_shape, address_shape. split.
  - intros H.
    inversion H as [| |? ? l r1 Hl H1| | | |]; subst. clear H.
    inversion H1 as [| |? ? a r2 Ha H2| | | |]; subst. clear H1.
    inversion H2 as [| |? ? d r3 Hd H3| | | |]; subst. clear H2.
    inversion H3 as [| |? ? b t Hb Ht| | | |]; subst. clear H3.
    apply matches_lit in Ha, Hb. subst a b.
    apply matches_plus_class in Hl, Hd, Ht.
    exists l, d, t. repeat split; try apply Hl; try apply Hd; try apply Ht.
  - intros (l & d & t & -> & Hl & Hd & Ht).
    apply matches_plus_class in Hl, Hd, Ht.
    constructor; [exact Hl|].
    change ("@" ++ d ++ "." ++ t)%string with (String "@" "" ++ (d ++ String "." "" ++ t))%string.
    constructor; [now apply matches_lit|].
    constructor; [exact Hd|]. constructor; [now apply matches_lit | exact Ht].
Qed.

End RegExpFacts.

(* ------------------------------------------------------------------ *)
(* The contact form.                                                   *)

Section Contact.

Implicit Types (d : ContactData) (f : ContactForm).

Lemma error_for_name d :
  error_for "name" (validateContact d) <> None <->
  (String.length (name d) < 2)%nat.
Proof.
  unfold validateContact.
  destruct (String.length (name d) <? 2)%nat eqn:E;
    [apply Nat.ltb_lt in E | apply Nat.ltb_ge in E].
  - simpl. split; [auto | discriminate].
  - destruct (negb _), (String.length (message d) <? 10)%nat; simpl;
      (split; [congruence | lia]).
Qed.

Lemma error_for_email d :
  error_for "email" (validateContact d) <> None <->
  RegExp.test email_regex (email d) = false.
Proof.
  unfold validateContact.
  destruct (String.length (name d) <? 2)%nat,
           (RegExp.test email_regex (email d)),
           (String.length (message d) <? 10)%nat; simpl;
    (split; [congruence | try discriminate; auto]).
Qed.

Lemma error_for_message d :
  error_for "message" (validateContact d) <> None <->
  (String.length (message d) < 10)%nat.
Proof.
  unfold validateContact.
  destruct (String.length (message d) <? 10)%nat eqn:E;
    [apply Nat.ltb_lt in E | apply Nat.ltb_ge in E];
    destruct (String.length (name d) <? 2)%nat,
             (negb (RegExp.test email_regex (email d))); simpl;
    (split; [congruence || auto | try discriminate; try lia]).
Qed.

Lemma error_for_fields d k :
  error_for k (validateContact d) <> None ->
  k = "name"%string \/ k = "email"%string \/ k = "message"%string.
Proof.
  unfold validateContact.
  destruct (String.length (name d) <? 2)%nat,
           (negb (RegExp.test email_regex (email d))),
           (String.length (message d) <? 10)%nat; simpl;
    repeat match goal with
           | |- context [String.eqb k ?x] =>
               destruct (String.eqb_spec k x); [subst; auto|]
           end; congruence.
Qed.

Lemma handleContactForm_errors f :
  form_errors (handleContactForm f) = validateContact (form_data f).
Proof.
  unfold handleContactForm. now destruct (validateContact (form_data f)).
Qed.

(* An address is made of the code units of its parts, @ and the dot. *)
Lemma address_shape_chars ok s :
  address_shape ok s ->
  all_chars (fun c => ok c || Ascii.eqb c "@" || Ascii.eqb c ".") s = true.
Proof.
  assert (App : forall (g : ascii -> bool) (a b : string),
             all_chars g (a ++ b) = all_chars g a && all_chars g b).
  { intros g a b. induction a as [|c a IH]; simpl; [reflexivity|].
    now rewrite IH, andb_assoc. }
  assert (Weak : forall a, all_chars ok a = true ->
             all_chars (fun c => ok c || Ascii.eqb c "@" || Ascii.eqb c ".") a
             = true).
  { induction a as [|c a IH]; simpl; [reflexivity|]. intros H.
    apply andb_true_iff in H as [-> H]. simpl. auto. }
  intros (l & d & t & -> & [_ Hl] & [_ Hd] & [_ Ht]).
  rewrite App. simpl. rewrite App. simpl.
  now rewrite (Weak l Hl), (Weak d Hd), (Weak t Ht), !orb_true_r.
Qed.

End Contact.

(* ------------------------------------------------------------------ *)
(* JSON: parse reads back what stringify writes.                       *)

Section JSONFacts.

Import JSON.

Implicit Types (v : value) (s t rest : string) (c : ascii) (x : number).

Lemma value_induction (P : value -> Prop) :
  P Null ->
  (forall b, P (Bool b)) ->
  (forall x, P (Num x)) ->
  (forall s, P (Str s)) ->
  (forall items, Forall P items -> P (Arr items)) ->
  (forall props, Forall (fun p => P (snd p)) props -> P (Obj props)) ->
  forall v, P v.
Proof.
  intros HN HB HX HS HA HO. fix IH 1.
  intros [|b|x|s|items|props];
    [exact HN | exact (HB b) | exact (HX x) | exact (HS s) | |].
  - apply HA. induction items as [|v items IHl]; constructor.
    + apply IH.
    + exact IHl.
  - apply HO. induction props as [|[k v] props IHl]; constructor.
    + simpl. apply IH.
    + exact IHl.
Qed.

Lemma length_append s t :
  String.length (s ++ t) = (String.length s + String.length t)%nat.
Proof. induction s as [|c s IH]; simpl; [reflexivity | now rewrite IH]. Qed.

Lemma skip_ws_head c r : is_json_ws c = false -> skip_ws (String c r) = String c r.
Proof. intros H. simpl. now rewrite H. Qed.

(* ---- strings ---- *)

Lemma parse_chars_quote_char c rest :
  parse_chars (quote_char c ++ rest) =
  match parse_chars rest with
  | Some (t, r) => Some (String c t, r)
  | None => None
  end.
Proof.
  destruct c as [[] [] [] [] [] [] [] []]; reflexivity.
Qed.

Lemma parse_chars_quoted s rest :
  parse_chars (concat_map quote_char s ++ String dquote rest) = Some (s, rest).
Proof.
  induction s as [|c s IH]; [reflexivity|].
  cbn [concat_map]. rewrite append_assoc, parse_chars_quote_char.
  now rewrite IH.
Qed.

Lemma quote_append s rest :
  (quote s ++ rest)%string =
  String dquote (concat_map quote_char s ++ String dquote rest).
Proof. unfold quote. cbn [append]. now rewrite append_assoc. Qed.

(* ---- numbers ---- *)

Lemma number_char_token c :
  is_number_char c = true ->
  is_json_ws c = false /\
  Ascii.eqb c "[" = false /\ Ascii.eqb c "{" = false /\
  Ascii.eqb c dquote = false /\ Ascii.eqb c "n" = false /\
  Ascii.eqb c "t" = false /\ Ascii.eqb c "f" = false.
Proof.
  destruct c as [[] [] [] [] [] [] [] []]; try discriminate;
    intros _; repeat split.
Qed.

Lemma span_token (f : ascii -> bool) tok rest :
  all_chars f tok = true ->
  match rest with EmptyString => True | String c _ => f c = false end ->
  span f (tok ++ rest) = (tok, rest).
Proof.
  intros H D. induction tok as [|c tok IH]; simpl in *.
  - destruct rest as [|c r]; [reflexivity|]. simpl. now rewrite D.
  - apply andb_true_iff in H as [-> H]. now rewrite IH.
Qed.

Lemma storable_nonempty x : storable x -> toString x <> ""%string.
Proof.
  intros (_ & _ & H) E. rewrite E in H. discriminate.
Qed.

(* ---- the first code unit of a written value ---- *)

Lemma stringify_head v :
  stable v ->
  exists c r, stringify v = String c r /\ is_json_ws c = false /\
              Ascii.eqb "]" c = false.
Proof.
  intros H. destruct H as [|b|x Hx| |items _|props _ _]; cbn [stringify].
  - now exists "n"%char, "ull"%string.
  - destruct b; [now exists "t"%char, "rue"%string
                | now exists "f"%char, "alse"%string].
  - pose proof (storable_nonempty x Hx) as Hne.
    destruct Hx as (-> & Hc & _).
    destruct (toString x) as [|c r]; [congruence|].
    exists c, r. simpl in Hc. apply andb_true_iff in Hc as [Hc _].
    split; [reflexivity|]. split; [now apply number_char_token|].
    destruct c as [[] [] [] [] [] [] [] []]; try discriminate; reflexivity.
  - unfold quote. now eexists _, _.
  - now eexists _, _.
  - now eexists _, _.
Qed.

Lemma stringify_length v : stable v -> (1 <= String.length (stringify v))%nat.
Proof.
  intros H. destruct (stringify_head v H) as (c & r & -> & _). simpl. lia.
Qed.

Lemma join_length items :
  Forall stable items ->
  (List.length items <= String.length (join "," (map stringify items)))%nat.
Proof.
  induction 1 as [|v items Hv _ IH]; [simpl; lia|].
  apply stringify_length in Hv. cbn [map join List.length].
  destruct (map stringify items) as [|t l]; [simpl in *; lia|].
  rewrite !length_append. simpl in *. lia.
Qed.

(* ---- arrays ---- *)

Lemma parse_items_join elem items :
  Forall (reads_back elem) items -> items <> [] ->
  forall n rest, (List.length items <= n)%nat ->
    parse_items elem n (join "," (map stringify items) ++ String "]" rest)
    = Some (items, rest).
Proof.
  induction 1 as [|v items Hv Hitems IH]; [congruence|]. intros _ n rest Hn.
  destruct n as [|n]; [simpl in Hn; lia|]. cbn [parse_items map join].
  destruct items as [|w items].
  - cbn [map]. rewrite Hv by reflexivity. reflexivity.
  - cbn [map] in *. rewrite !append_assoc. rewrite Hv by reflexivity.
    cbn [append skip_ws is_json_ws]. cbn. 
    rewrite IH; [reflexivity | discriminate | simpl in *; lia].
Qed.

(* ---- objects ---- *)

Lemma parse_members_join elem props :
  Forall (fun p => reads_back elem (snd p)) props -> props <> [] ->
  forall n rest, (List.length props <= n)%nat ->
    parse_members elem n (join "," (map member_text props) ++ String "}" rest)
    = Some (props, rest).
Proof.
  induction 1 as [|[k v] props Hv Hprops IH]; [congruence|].
  intros _ n rest Hn. simpl in Hv.
  destruct n as [|n]; [simpl in Hn; lia|]. cbn [map join].
  assert (Step : forall tail,
    delimited tail ->
    parse_members elem (S n) (member_text (k, v) ++ tail) =
    match skip_ws tail with
    | String d r4 =>
        if Ascii.eqb d "," then
          match parse_members elem n r4 with
          | Some (ms, r5) => Some ((k, v) :: ms, r5)
          | None => None
          end
        else if Ascii.eqb d "}" then Some ([(k, v)], r4)
        else None
    | EmptyString => None
    end).
  { intros tail D. unfold member_text. cbn [fst snd].
    rewrite append_assoc, quote_append. cbn [parse_members].
    rewrite skip_ws_head by reflexivity. rewrite Ascii.eqb_refl.
    rewrite parse_chars_quoted. rewrite append_assoc.
    cbn [append]. rewrite skip_ws_head by reflexivity.
    rewrite Ascii.eqb_refl. now rewrite Hv. }
  destruct props as [|q props].
  - cbn [map]. rewrite Step by reflexivity. reflexivity.
  - cbn [map] in *. rewrite !append_assoc. rewrite Step by reflexivity.
    cbn [append]. rewrite skip_ws_head by reflexivity. cbn.
    rewrite IH; [reflexivity | discriminate | simpl in *; lia].
Qed.

Lemma members_length props :
  (List.length props <= String.length (join "," (map member_text props)))%nat.
Proof.
  induction props as [|[k v] props IH]; [simpl; lia|].
  cbn [map join List.length].
  assert (1 <= String.length (member_text (k, v)))%nat
    by (unfold member_text, quote; simpl; lia).
  destruct (map member_text props) as [|t l]; [simpl in *; lia|].
  rewrite !length_append. simpl in *. lia.
Qed.

(* ---- values ---- *)

Lemma depth_item v items fuel :
  In v items ->
  (fold_right (fun u m => Nat.max (depth u) m) O items < fuel)%nat ->
  (depth v < fuel)%nat.
Proof.
  induction items as [|w items IH]; simpl; [tauto|].
  intros [->|H] Hf; [lia | apply IH; [exact H | lia]].
Qed.

Lemma depth_prop (p : string * value) props fuel :
  In p props ->
  (fold_right (fun q m => Nat.max (depth (snd q)) m) O props < fuel)%nat ->
  (depth (snd p) < fuel)%nat.
Proof.
  induction props as [|w props IH]; simpl; [tauto|].
  intros [->|H] Hf; [lia | apply IH; [exact H | lia]].
Qed.

Lemma stringify_obj props :
  stringify (Obj props) =
  String "{" (join "," (map member_text props) ++ "}")%string.
Proof. reflexivity. Qed.

Lemma stringify_arr items :
  stringify (Arr items) =
  String "[" (join "," (map stringify items) ++ "]")%string.
Proof. reflexivity. Qed.

Lemma parse_value_stringify v :
  stable v -> forall fuel, (depth v < fuel)%nat ->
  reads_back (parse_value fuel) v.
Proof.
  induction v as [|b|x|s|items IH|props IH] using value_induction;
    intros St fuel Hf rest D; (destruct fuel as [|fuel]; [lia|]).
  - reflexivity.
  - destruct b; reflexivity.
  - inversion St as [| |? Hx| | |]; subst.
    pose proof (storable_nonempty x Hx) as Hne.
    destruct Hx as (Fin & Hc & Hp). cbn [stringify]. rewrite Fin.
    destruct (toString x) as [|c r] eqn:E; [congruence|].
    pose proof Hc as Hc'. simpl in Hc'. apply andb_true_iff in Hc' as [H1 _].
    destruct (number_char_token c H1) as (W & B1 & B2 & B3 & B4 & B5 & B6).
    cbn [parse_value append]. rewrite skip_ws_head by exact W.
    unfold parse_token. rewrite B1, B2, B3, B4, B5, B6.
    change (String c (r ++ rest)) with (String c r ++ rest)%string.
    rewrite (span_token is_number_char (String c r) rest Hc).
    + now rewrite Hp.
    + destruct rest; [exact I | exact D].
  - cbn [stringify]. rewrite quote_append. cbn [parse_value].
    rewrite skip_ws_head by reflexivity. unfold parse_token.
    cbn [Ascii.eqb]. cbn. now rewrite parse_chars_quoted.
  - inversion St as [| | | |? Hitems|]; subst.
    rewrite stringify_arr. cbn [append parse_value].
    rewrite skip_ws_head by reflexivity. unfold parse_token.
    rewrite Ascii.eqb_refl. rewrite append_assoc. cbn [append].
    assert (Hread : Forall (reads_back (parse_value fuel)) items).
    { apply Forall_forall. intros v Hv.
      rewrite Forall_forall in IH, Hitems.
      apply IH; [exact Hv | now apply Hitems |].
      simpl in Hf. eapply depth_item; [exact Hv | lia]. }
    destruct items as [|v items]; [reflexivity|].
    inversion Hitems as [|? ? Hv _]; subst.
    destruct (stringify_head v Hv) as (c & r & E & W & B).
    assert (Hhead : exists t,
               (join "," (map stringify (v :: items)) ++ String "]" rest)%string
               = String c t).
    { cbn [map join]. rewrite E. destruct (map stringify items); now eexists. }
    destruct Hhead as (t & Ht). rewrite Ht at 1.
    rewrite skip_ws_head by exact W. cbn [strip_prefix]. rewrite B.
    rewrite parse_items_join; [reflexivity | exact Hread | discriminate |].
    rewrite length_append. pose proof (join_length _ Hitems). lia.
  - inversion St as [| | | | |? Hprops Hord]; subst.
    rewrite stringify_obj. cbn [append parse_value].
    rewrite skip_ws_head by reflexivity. unfold parse_token.
    cbn [Ascii.eqb]. cbn - [parse_members skip_ws strip_prefix append join].
    rewrite append_assoc. cbn [append].
    assert (Hread : Forall (fun p => reads_back (parse_value fuel) (snd p)) props).
    { apply Forall_forall. intros p Hp.
      rewrite Forall_forall in IH, Hprops.
      apply IH; [exact Hp | now apply Hprops |].
      simpl in Hf. eapply depth_prop; [exact Hp | lia]. }
    destruct props as [|[k v] props]; [reflexivity|].
    assert (Hhead : exists t,
               (join "," (map member_text ((k, v) :: props)) ++ String "}" rest)%string
               = String dquote t).
    { cbn [map join].
      destruct (map member_text props); unfold member_text at 1, quote;
        cbn [fst append]; now eexists. }
    destruct Hhead as (t & Ht). rewrite Ht at 1.
    rewrite skip_ws_head by reflexivity. cbn [strip_prefix].
    change (Ascii.eqb "}" dquote) with false. cbv iota.
    rewrite parse_members_join; [| exact Hread | discriminate |].
    + unfold object_of. now rewrite Hord.
    + rewrite length_append. pose proof (members_length ((k, v) :: props)). lia.
Qed.

Lemma max_le_join {A} (f : A -> nat) (g : A -> string) (l : list A) :
  Forall (fun a => (f a <= String.length (g a))%nat) l ->
  (fold_right (fun a m => Nat.max (f a) m) O l
   <= String.length (join "," (map g l)))%nat.
Proof.
  induction 1 as [|a l Ha _ IH]; [simpl; lia|].
  cbn [fold_right map join].
  destruct (map g l) as [|t l']; [simpl in *; lia|].
  rewrite !length_append. simpl in *. lia.
Qed.

Lemma depth_le_length v : stable v -> (depth v <= String.length (stringify v))%nat.
Proof.
  induction v as [|b|x|s|items IH|props IH] using value_induction;
    intros St; try (simpl; lia).
  - inversion St as [| | | |? Hitems|]; subst.
    rewrite stringify_arr. cbn [depth String.length].
    rewrite length_append. apply le_n_S.
    transitivity (String.length (join "," (map stringify items))); [|lia].
    apply max_le_join. rewrite Forall_forall in *. auto.
  - inversion St as [| | | | |? Hprops Hord]; subst.
    rewrite stringify_obj. cbn [depth String.length].
    rewrite length_append. apply le_n_S.
    transitivity (String.length (join "," (map member_text props))); [|lia].
    apply (max_le_join (fun p => depth (snd p))).
    rewrite Forall_forall in *. intros p Hp.
    transitivity (String.length (stringify (snd p))); [auto|].
    unfold member_text. rewrite !length_append. lia.
Qed.

(* JSON.parse reads back what JSON.stringify writes for a stable value. *)
Theorem parse_stringify v : stable v -> parse (stringify v) = Some v.
Proof.
  intros St. unfold parse.
  pose proof (parse_value_stringify v St
                (S (String.length (stringify v)))) as H.
  rewrite <- (append_nil_r (stringify v)) at 2.
  rewrite H; [reflexivity | | exact I].
  pose proof (depth_le_length v St). lia.
Qed.

End JSONFacts.

(* ------------------------------------------------------------------ *)
(* The stored cart.                                                    *)

Section Persistence.

Import JSON.

Implicit Types (c : list CartLine) (i : CartLine).

Lemma line_value_stable i : valid_line i -> stable (line_value i).
Proof.
  intros (p & Hp & Hid & Hprice & Hqty). unfold line_value. rewrite Hp.
  apply stable_obj; [|reflexivity].
  unfold product_props. cbn [app].
  repeat (apply Forall_cons;
          [cbn [snd]; first [apply stable_str | now apply stable_num]|]).
  apply Forall_nil.
Qed.

Lemma cart_value_stable c : valid_cart c -> stable (cart_value c).
Proof.
  intros H. apply stable_arr. apply Forall_forall. intros v Hv.
  apply in_map_iff in Hv as (i & <- & Hi). apply line_value_stable.
  unfold valid_cart in H. rewrite Forall_forall in H. now apply H.
Qed.

Lemma loadCart_parsed text v :
  parse text = Some v -> truthy v = true -> loadCart (Some text) = Normal v.
Proof.
  intros H T. unfold loadCart, JSON_parse. rewrite H. simpl. now rewrite T.
Qed.



End Persistence.

(* ------------------------------------------------------------------ *)
(* Numbers: the digits of toFixed(2).                                  *)

Section Digits.

Implicit Types (n : Z) (s acc : string) (fuel : nat).















End Digits.

(* ------------------------------------------------------------------ *)
(* The properties of the specification.                                *)

Lemma changed_at_one n c i :
  find (has_id n) c = Some i -> qty i = 1 -> changed n (-1) c = c.
Proof.
  unfold changed. induction c as [|j c IH]; simpl; [discriminate|].
  destruct (has_id n j).
  - intros H Hq. injection H as ->. destruct i as [pr q]. simpl in *.
    subst q. reflexivity.
  - intros H Hq. now rewrite IH.
Qed.

Lemma demo_state_reachable : reachable demo_state.
Proof.
  apply (reachable_final blank demo_ops).
  - reflexivity.
  - vm_compute. reflexivity.
  - vm_compute. reflexivity.
Qed.

(** C1: every cart reachable from the empty cart through add, changeQty,
    remove, clear and checkout has at most one line per product id and
    only quantities of at least 1.  changeQty never removes a line: it
    returns and leaves the ids of the lines as they were; on a line of
    quantity 1 a decrement leaves the cart as it was; on an id that has
    no line it returns at once, with the state untouched and nothing
    written. *)
Theorem cart_invariant s :
  reachable s ->
  (forall n, (List.length (filter (has_id n) (cart s)) <= 1)%nat) /\
  Forall (fun i => 1 <= qty i) (cart s) /\
  (forall n q, exists s' log,
      changeQty n q s = Return tt s' log /\
      map line_id (cart s') = map line_id (cart s)) /\
  (forall n i, find (has_id n) (cart s) = Some i -> qty i = 1 ->
      cart (final (changeQty n (-1) s)) = cart s) /\
  (forall n q, find (has_id n) (cart s) = None ->
      changeQty n q s = Return tt s []).
Proof.
  intros R. apply reachable_cart_ok in R as (Hc & Hd & Hq).
  repeat split.
  - intros n. now apply one_line_per_id.
  - exact Hq.
  - intros n q. destruct (find (has_id n) (cart s)) eqn:F.
    + rewrite (changeQty_run _ _ _ _ F Hc). do 2 eexists.
      split; [reflexivity|].
      change (map line_id (changed n q (cart s)) = map line_id (cart s)).
      now apply map_line_id_update_first.
    + rewrite changeQty_absent by exact F. now do 2 eexists.
  - intros n i F Hi. rewrite changeQty_cart. now apply (changed_at_one n _ i).
  - intros n q F. now apply changeQty_absent.
Qed.

Lemma cart_invariant_witness :
  reachable demo_state /\
  (forall n, (List.length (filter (has_id n) (cart demo_state)) <= 1)%nat) /\
  Forall (fun i => 1 <= qty i) (cart demo_state) /\
  cart (final (changeQty 2 (-1) demo_state)) = cart demo_state.
Proof.
  pose proof (cart_invariant demo_state demo_state_reachable)
    as (H1 & H2 & _ & H4 & _).
  split; [exact demo_state_reachable|].
  split; [exact H1|]. split; [exact H2|].
  apply (H4 2 (new_line blueHat 1)); vm_compute; reflexivity.
Defined.

(** C2: starting from a cart that has no line for the id of p (and whose
    lines all carry their product), n >= 1 calls of add(p) in a row return
    and leave exactly one line for that id, after the lines that were
    there, with quantity n.  The first call appends the line with quantity
    1; a call on a cart that has a line for the id adds 1 to the quantity
    of that line and changes nothing else. *)
Theorem add_counts_calls s p n :
  forallb complete (cart s) = true ->
  find (has_id (id p)) (cart s) = None ->
  (1 <= n)%nat ->
  (exists s' log,
      repeat_op n (addToCart (Some p)) s = Return tt s' log /\
      cart s' = cart s ++ [new_line p (Z.of_nat n)] /\
      filter (has_id (id p)) (cart s') = [new_line p (Z.of_nat n)]) /\
  cart (final (addToCart (Some p) s)) = cart s ++ [new_line p 1] /\
  (forall s1 i,
      forallb complete (cart s1) = true ->
      find (has_id (id p)) (cart s1) = Some i ->
      cart (final (addToCart (Some p) s1)) =
      update_first (has_id (id p)) (fun j => set_qty (qty j + 1) j) (cart s1)).
Proof.
  intros Hc F Hn. split; [|split].
  - destruct n as [|n]; [lia|].
    cbn [repeat_op]. unfold bind. rewrite (addToCart_run _ _ Hc).
    edestruct (repeat_add_from p (cart s) n
                 (set_dom (set_cartPanel false true)
                    (synced (set_cart (added p (cart s)) s))) 1)
      as (s' & log & -> & Hs'); [exact F | exact Hc | |].
    + change (added p (cart s) = cart s ++ [new_line p 1]).
      now apply added_fresh.
    + assert (E : 1 + Z.of_nat n = Z.of_nat (S n)) by lia.
      rewrite E in Hs'. do 2 eexists. split; [reflexivity|].
      split; [exact Hs'|]. rewrite Hs'. now apply filter_fresh.
  - rewrite (addToCart_run _ _ Hc).
    change (added p (cart s) = cart s ++ [new_line p 1]).
    now apply added_fresh.
  - intros s1 i H1 F1. rewrite (addToCart_run _ _ H1).
    change (added p (cart s1) = update_first (has_id (id p))
                                  (fun j => set_qty (qty j + 1) j) (cart s1)).
    unfold added. now rewrite F1.
Qed.

Lemma add_counts_calls_witness :
  forallb complete (cart (final (init blank))) = true /\
  find (has_id (id redShirt)) (cart (final (init blank))) = None /\
  (1 <= 3)%nat /\
  exists s' log,
    repeat_op 3 (addToCart (Some redShirt)) (final (init blank)) =
    Return tt s' log /\
    cart s' = [new_line redShirt 3].
Proof.
  assert (H1 : forallb complete (cart (final (init blank))) = true)
    by (vm_compute; reflexivity).
  assert (H2 : find (has_id (id redShirt)) (cart (final (init blank))) = None)
    by (vm_compute; reflexivity).
  assert (H3 : (1 <= 3)%nat) by lia.
  split; [exact H1|]. split; [exact H2|]. split; [exact H3|].
  destruct (add_counts_calls (final (init blank)) redShirt 3 H1 H2 H3)
    as ((s' & log & H & E & _) & _).
  exists s', log. split; [exact H | exact E].
Defined.



(** C6: checkout on an empty cart only alerts that the cart is empty: the
    state it returns is the state it was given and nothing is stored.
    checkout on a cart with a line alerts the purchase, asks nothing,
    stores the empty cart and returns a state whose cart is empty, whose
    stored slot loads as the empty cart and whose cart panel is hidden. *)
Theorem checkout_outcomes s :
  (cart s = [] ->
   checkout s = Return tt s [Alert ("Carrito vac" ++ String i_acute "o")]) /\
  (cart s <> [] ->
   exists s',
     checkout s =
     Return tt s' [Alert "Compra realizada (demo)"; SetItem "cart" "[]"] /\
     cart s' = [] /\
     localStorage_cart s' = Some "[]"%string /\
     loadCart (localStorage_cart s') = Normal (JSON.Arr []) /\
     cartPanel_hidden (dom s') = true /\
     cartToggle_expanded (dom s') = false /\
     cartCount (dom s') = 0 /\
     cartItems (dom s') = []).
Proof.
  split; intros H.
  - now apply checkout_empty.
  - rewrite checkout_run by exact H. eexists. split; [reflexivity|].
    repeat split.
Qed.

Lemma checkout_outcomes_witness :
  (cart blank = [] /\
   checkout blank =
   Return tt blank [Alert ("Carrito vac" ++ String i_acute "o")]) /\
  (cart demo_state <> [] /\
   exists s', checkout demo_state =
              Return tt s' [Alert "Compra realizada (demo)"; SetItem "cart" "[]"]
              /\ cart s' = []).
Proof.
  split.
  - split; [reflexivity|].
    apply (proj1 (checkout_outcomes blank)). reflexivity.
  - assert (H : cart demo_state <> []) by (vm_compute; discriminate).
    split; [exact H|].
    destruct (proj2 (checkout_outcomes demo_state) H) as (s' & E & C & _).
    exists s'. split; [exact E | exact C].
Defined.








(** C8, as the code has it: the fields are trimmed and then checked.  There
    is an error for name exactly when the trimmed name has fewer than 2
    code units, for message exactly when the trimmed message has fewer
    than 10, and for email exactly when the trimmed email is not of the
    shape local@domain.tld with three non-empty parts that hold neither
    white space nor an @.  No other field gets an error, and the form
    shows these errors.  The all-valid fixture yields no error and the
    fixture with three faults yields the three errors. *)
Theorem contact_errors f :
  (error_for "name" (validateContact (form_data f)) <> None <->
   (String.length (trim (name_value f)) < 2)%nat) /\
  (error_for "email" (validateContact (form_data f)) <> None <->
   ~ email_shape (trim (email_value f))) /\
  (error_for "message" (validateContact (form_data f)) <> None <->
   (String.length (trim (message_value f)) < 10)%nat) /\
  (forall k, error_for k (validateContact (form_data f)) <> None ->
             k = "name"%string \/ k = "email"%string \/ k = "message"%string) /\
  form_errors (handleContactForm f) = validateContact (form_data f) /\
  validateContact (form_data (contact "Ana" "a@b.co" "This is long enough."))
  = [] /\
  validateContact (form_data (contact "A" "bad" "short"))
  = [("name"%string, msg_name); ("email"%string, msg_email);
     ("message"%string, msg_message)].
Proof.
  split; [apply error_for_name|]. split.
  - rewrite error_for_email, <- email_regex_shape.
    cbn [form_data email]. now destruct (RegExp.test _ _).
  - split; [apply error_for_message|]. split; [apply error_for_fields|].
    split; [apply handleContactForm_errors|]. split; reflexivity.
Qed.

Lemma contact_errors_witness :
  (String.length (trim " A ") < 2)%nat /\
  error_for "name"
    (validateContact (form_data (contact " A " "a@b@c.de" "short"))) <> None /\
  ~ email_shape (trim "a@b@c.de").
Proof.
  destruct (contact_errors (contact " A " "a@b@c.de" "short"))
    as (H1 & H2 & _).
  assert (L : (String.length (trim " A ") < 2)%nat) by (vm_compute; lia).
  split; [exact L|]. split; [now apply H1|].
  apply H2. vm_compute. discriminate.
Defined.

(** C8, as the claim words it, fails: a@b@c.de is made of a non-blank local
    part, an @, a non-blank domain, a dot and a non-blank last part, yet
    the form reports the email as invalid; and the email a@b.co typed
    with a space before and after is not of that shape as it stands, yet
    it gets no error, the check being made on the trimmed value. *)
Lemma contact_errors_counterexample :
  (spec_email_shape "a@b@c.de" /\
   error_for "email"
     (validateContact
        (form_data (contact "Ana" "a@b@c.de" "This is long enough.")))
   = Some msg_email) /\
  (~ spec_email_shape " a@b.co " /\
   error_for "email"
     (validateContact
        (form_data (contact "Ana" " a@b.co " "This is long enough.")))
   = None).
Proof.
  split; split.
  - exists "a"%string, "b@c"%string, "de"%string.
    repeat split; discriminate.
  - reflexivity.
  - intros H. apply address_shape_chars in H. discriminate.
  - reflexivity.
Qed.




(** C9: loadCart checks nothing once JSON.parse has returned: every parsed
    value that is truthy is returned as it is.  So the text {} loads as an
    object and the text [{"id":1,"qty":0}] as an array with that line,
    neither of which is the value of any cart; and the stored texts of a
    cart with a quantity of 0 and of a cart with two lines for one id load
    as those carts, which break the invariant of the cart. *)
Theorem loadCart_unchecked :
  (forall text v,
     JSON.parse text = Some v -> JSON.truthy v = true ->
     loadCart (Some text) = Normal v) /\
  (loadCart (Some "{}") = Normal (JSON.Obj []) /\
   forall c, cart_value c <> JSON.Obj []) /\
  (loadCart (Some (dq "[{'id':1,'qty':0}]"))
   = Normal (JSON.Arr [JSON.Obj [("id"%string, JSON.Num (of_Z 1));
                                 ("qty"%string, JSON.Num (of_Z 0))]]) /\
   forall c, cart_value c <>
             JSON.Arr [JSON.Obj [("id"%string, JSON.Num (of_Z 1));
                                 ("qty"%string, JSON.Num (of_Z 0))]]) /\
  (loadCart (Some (JSON.stringify (cart_value [new_line redShirt 0])))
   = Normal (cart_value [new_line redShirt 0]) /\
   ~ cart_ok [new_line redShirt 0]) /\
  (loadCart (Some (JSON.stringify
                     (cart_value [new_line redShirt 1; new_line redShirt 1])))
   = Normal (cart_value [new_line redShirt 1; new_line redShirt 1]) /\
   ~ cart_ok [new_line redShirt 1; new_line redShirt 1]).
Proof.
  split; [exact loadCart_parsed|].
  split; [split; [reflexivity | discriminate]|].
  split; [split|].
  - vm_compute. reflexivity.
  - intros c H. unfold cart_value in H. injection H as H.
    destruct c as [|i [|j c]]; try discriminate. injection H as H.
    unfold line_value in H. destruct (product i); discriminate.
  - split; [split|split].
    + vm_compute. reflexivity.
    + intros (_ & _ & H). inversion H as [|? ? Hq _]; subst. simpl in Hq. lia.
    + vm_compute. reflexivity.
    + intros (_ & H & _). inversion H as [|? ? Hin _]; subst.
      apply Hin. now left.
Qed.

Lemma loadCart_unchecked_witness :
  JSON.parse "[1,true]" = Some (JSON.Arr [JSON.Num (of_Z 1); JSON.Bool true]) /\
  JSON.truthy (JSON.Arr [JSON.Num (of_Z 1); JSON.Bool true]) = true /\
  loadCart (Some "[1,true]")
  = Normal (JSON.Arr [JSON.Num (of_Z 1); JSON.Bool true]).
Proof.
  assert (P : JSON.parse "[1,true]"
              = Some (JSON.Arr [JSON.Num (of_Z 1); JSON.Bool true]))
    by (vm_compute; reflexivity).
  split; [exact P|]. split; [reflexivity|].
  apply (proj1 loadCart_unchecked); [exact P | reflexivity].
Defined.

(* ------------------------------------------------------------------ *)
(* Further properties of app.js.                                       *)

Ltac not_in_log H :=
  first [ apply H; reflexivity
        | let Hin := fresh in
          intros Hin; exfalso; revert Hin; apply H; reflexivity ].

Section CartExtras.

Implicit Types (s : State) (c : list CartLine) (p : Product) (o : Op).

Lemma loadCart_stored s :
  stored_in_sync s -> valid_cart (cart s) ->
  loadCart (localStorage_cart s) = Normal (cart_value (cart s)).
Proof.
  intros E V. rewrite E. apply loadCart_parsed; [|reflexivity].
  now apply parse_stringify, cart_value_stable.
Qed.

(* What an operation returns on a cart whose lines carry their product:
   the state as it was and nothing written, or a state in which the new
   cart is stored, with that one write. *)
Lemma perform_cases o s :
  forallb complete (cart s) = true ->
  exists s' log,
    perform o s = Return tt s' log /\
    ((s' = s /\ forall k v, ~ In (SetItem k v) log) \/
     (stored_in_sync s' /\
      forall k v, In (SetItem k v) log ->
                  k = "cart"%string /\
                  v = JSON.stringify (cart_value (cart s')))).
Proof.
  intros Hc.
  destruct o as [p|n q|n|answer|]; cbn [perform].
  - rewrite (addToCart_run _ _ Hc). do 2 eexists. split; [reflexivity|].
    right. split; [reflexivity|].
    intros k v [H|[H|[]]]; [|discriminate]. injection H as <- <-. now split.
  - destruct (find (has_id n) (cart s)) eqn:F.
    + rewrite (changeQty_run _ _ _ _ F Hc). do 2 eexists.
      split; [reflexivity|]. right. split; [reflexivity|].
      intros k v [H|[]]. injection H as <- <-. now split.
    + rewrite (changeQty_absent _ _ _ F). do 2 eexists.
      split; [reflexivity|]. left. split; [reflexivity | intros k v []].
  - rewrite (removeFromCart_run _ _ Hc). do 2 eexists.
    split; [reflexivity|]. right. split; [reflexivity|].
    intros k v [H|[]]. injection H as <- <-. now split.
  - destruct (cart s) eqn:E.
    + rewrite (clearCart_empty _ _ E). do 2 eexists.
      split; [reflexivity|]. left. split; [reflexivity | intros k v []].
    + destruct answer.
      * rewrite clearCart_confirmed by congruence. do 2 eexists.
        split; [reflexivity|]. right. split; [reflexivity|].
        intros k v [H|[H|[]]]; [discriminate|]. injection H as <- <-.
        now split.
      * rewrite clearCart_declined by congruence. do 2 eexists.
        split; [reflexivity|]. left. split; [reflexivity|].
        intros k v [H|[]]. discriminate.
  - destruct (cart s) eqn:E.
    + rewrite (checkout_empty _ E). do 2 eexists.
      split; [reflexivity|]. left. split; [reflexivity|].
      intros k v [H|[]]. discriminate.
    + rewrite checkout_run by congruence. do 2 eexists.
      split; [reflexivity|]. right. split; [reflexivity|].
      intros k v [H|[H|[]]]; [discriminate|]. injection H as <- <-.
      now split.
Qed.

(** X1: every operation of the cart writes through.  On a cart whose lines
    carry their product, an operation that changes the cart leaves the new
    cart stored; a slot that held the cart holds it afterwards; whatever
    is written goes to the key cart and is the text of the cart the
    operation leaves.  A stored cart of valid lines loads as that cart. *)
Theorem cart_written_through o s s' log :
  forallb complete (cart s) = true ->
  perform o s = Return tt s' log ->
  (cart s' <> cart s -> stored_in_sync s') /\
  (stored_in_sync s -> stored_in_sync s') /\
  (forall k v, In (SetItem k v) log ->
     k = "cart"%string /\ v = JSON.stringify (cart_value (cart s')) /\
     stored_in_sync s') /\
  (stored_in_sync s' -> valid_cart (cart s') ->
   loadCart (localStorage_cart s') = Normal (cart_value (cart s'))).
Proof.
  intros Hc P. destruct (perform_cases o s Hc) as (s1 & l1 & P1 & Cases).
  rewrite P in P1. injection P1 as <- <-.
  split; [|split; [|split]].
  - intros Hne. destruct Cases as [[-> _]|[H _]]; [congruence | exact H].
  - intros Hs. destruct Cases as [[-> _]|[H _]]; [exact Hs | exact H].
  - intros k v Hin. destruct Cases as [[_ H]|[H1 H2]].
    + elim (H k v Hin).
    + destruct (H2 k v Hin) as [-> ->]. now repeat split.
  - apply loadCart_stored.
Qed.

Lemma cart_written_through_witness :
  forallb complete (cart scenario_state) = true /\
  cart (final (perform (ChangeQty 1 5) scenario_state)) <> cart scenario_state /\
  valid_cart (cart (final (perform (ChangeQty 1 5) scenario_state))) /\
  loadCart (localStorage_cart (final (perform (ChangeQty 1 5) scenario_state)))
  = Normal (cart_value [new_line redShirt 7; new_line blueHat 1]).
Proof.
  assert (Hc : forallb complete (cart scenario_state) = true)
    by (vm_compute; reflexivity).
  assert (P : perform (ChangeQty 1 5) scenario_state =
              Return tt (final (perform (ChangeQty 1 5) scenario_state))
                (effects (perform (ChangeQty 1 5) scenario_state)))
    by (apply returns_eq; vm_compute; reflexivity).
  assert (E : cart (final (perform (ChangeQty 1 5) scenario_state)) =
              [new_line redShirt 7; new_line blueHat 1])
    by (vm_compute; reflexivity).
  assert (Hne : cart (final (perform (ChangeQty 1 5) scenario_state))
                <> cart scenario_state)
    by (vm_compute; discriminate).
  assert (V : valid_cart (cart (final (perform (ChangeQty 1 5) scenario_state)))).
  { rewrite E. repeat constructor; eexists; (split; [reflexivity|]);
      repeat split; vm_compute; reflexivity. }
  destruct (cart_written_through _ _ _ _ Hc P) as (H1 & _ & _ & H4).
  split; [exact Hc|]. split; [exact Hne|]. split; [exact V|].
  rewrite <- E. apply H4; [apply H1; exact Hne | exact V].
Defined.

(** X2: the dialogs of the cart.  On a cart whose lines carry their
    product, an operation that returns asks for confirmation only if it is
    clear on a cart with a line, alerts only if it is checkout, shows a
    toast only if it is add, and never opens a window. *)
Theorem dialogs_of_operations o s s' log :
  forallb complete (cart s) = true ->
  perform o s = Return tt s' log ->
  (forall m, In (Confirm m) log -> (exists a, o = Clear a) /\ cart s <> []) /\
  (forall m, In (Alert m) log -> o = Checkout) /\
  (forall m, In (Toast m) log -> exists p, o = Add p) /\
  (forall u, ~ In (WindowOpen u) log).
Proof.
  intros Hc P.
  assert (None_of : forall (l : list Effect) (e : Effect),
             forallb (fun x => match x, e with
                               | Alert _, Alert _ | Confirm _, Confirm _
                               | Toast _, Toast _ | WindowOpen _, WindowOpen _
                               | SetItem _ _, SetItem _ _ => false
                               | _, _ => true
                               end) l = true -> ~ In e l).
  { intros l e H Hin. rewrite forallb_forall in H. specialize (H e Hin).
    destruct e; discriminate. }
  destruct o as [p|n q|n|answer|]; cbn [perform] in P.
  - rewrite (addToCart_run _ _ Hc) in P. injection P as <- <-.
    split; [|split; [|split]]; intros m; try not_in_log None_of.
    intros _. now exists p.
  - destruct (find (has_id n) (cart s)) eqn:F.
    + rewrite (changeQty_run _ _ _ _ F Hc) in P. injection P as <- <-.
      split; [|split; [|split]]; intros m; not_in_log None_of.
    + rewrite (changeQty_absent _ _ _ F) in P. injection P as <- <-.
      split; [|split; [|split]]; intros m; not_in_log None_of.
  - rewrite (removeFromCart_run _ _ Hc) in P. injection P as <- <-.
    split; [|split; [|split]]; intros m; not_in_log None_of.
  - destruct (cart s) eqn:E.
    + rewrite (clearCart_empty _ _ E) in P. injection P as <- <-.
      split; [|split; [|split]]; intros m; not_in_log None_of.
    + assert (Hne : cart s <> []) by congruence. rewrite <- E in *.
      destruct answer.
      * rewrite (clearCart_confirmed _ Hne) in P. injection P as <- <-.
        split; [|split; [|split]]; intros m; try not_in_log None_of.
        intros _. split; [now exists true | exact Hne].
      * rewrite (clearCart_declined _ Hne) in P. injection P as <- <-.
        split; [|split; [|split]]; intros m; try not_in_log None_of.
        intros _. split; [now exists false | exact Hne].
  - destruct (cart s) eqn:E.
    + rewrite (checkout_empty _ E) in P. injection P as <- <-.
      split; [|split; [|split]]; intros m; try not_in_log None_of.
      reflexivity.
    + assert (Hne : cart s <> []) by congruence.
      rewrite (checkout_run _ Hne) in P. injection P as <- <-.
      split; [|split; [|split]]; intros m; try not_in_log None_of.
      reflexivity.
Qed.

Lemma dialogs_of_operations_witness :
  forallb complete (cart scenario_state) = true /\
  effects (perform (Clear false) scenario_state)
  = [Confirm (String inverted_question "Vaciar carrito?")] /\
  forall u, ~ In (WindowOpen u) (effects (perform (Clear false) scenario_state)).
Proof.
  assert (Hc : forallb complete (cart scenario_state) = true)
    by (vm_compute; reflexivity).
  assert (P : perform (Clear false) scenario_state =
              Return tt (final (perform (Clear false) scenario_state))
                (effects (perform (Clear false) scenario_state)))
    by (apply returns_eq; vm_compute; reflexivity).
  split; [exact Hc|]. split; [vm_compute; reflexivity|].
  exact (proj2 (proj2 (proj2 (dialogs_of_operations _ _ _ _ Hc P)))).
Defined.

(** X3: clear asks first.  On an empty cart clearCart does nothing and asks
    nothing.  On a cart with a line it asks for confirmation; when the
    answer is no the state is as it was; when the answer is yes it stores
    the empty cart and returns a state with an empty cart, a count of 0,
    no drawn line and the total 0.00, whatever the lines were, and leaves
    the cart panel and the catalog as they were. *)
Theorem clear_asks_first s :
  (cart s = [] -> forall answer, clearCart answer s = Return tt s []) /\
  (cart s <> [] ->
   clearCart false s =
   Return tt s [Confirm (String inverted_question "Vaciar carrito?")] /\
   exists s',
     clearCart true s =
     Return tt s' [Confirm (String inverted_question "Vaciar carrito?");
                   SetItem "cart" "[]"] /\
     cart s' = [] /\ localStorage_cart s' = Some "[]"%string /\
     cartCount (dom s') = 0 /\ cartItems (dom s') = [] /\
     cartTotal (dom s') = "0.00"%string /\
     cartPanel_hidden (dom s') = cartPanel_hidden (dom s) /\
     products s' = products s /\ filtered s' = filtered s).
Proof.
  split.
  - intros E answer. now apply clearCart_empty.
  - intros H. split; [now apply clearCart_declined|].
    rewrite (clearCart_confirmed _ H). eexists. split; [reflexivity|].
    repeat split.
Qed.

Lemma clear_asks_first_witness :
  cart scenario_state <> [] /\
  clearCart false scenario_state =
  Return tt scenario_state [Confirm (String inverted_question "Vaciar carrito?")] /\
  cart (final (clearCart true scenario_state)) = [].
Proof.
  assert (H : cart scenario_state <> []) by (vm_compute; discriminate).
  destruct (proj2 (clear_asks_first scenario_state) H) as (H1 & s' & E & C & _).
  split; [exact H|]. split; [exact H1|]. rewrite E. exact C.
Defined.

(* ---- quantities ---- *)











(* ---- remove ---- *)

Lemma removed_comm n m c : removed n (removed m c) = removed m (removed n c).
Proof.
  unfold removed. induction c as [|i c IH]; simpl; [reflexivity|].
  destruct (has_id m i) eqn:Em, (has_id n i) eqn:En; simpl;
    rewrite ?Em, ?En; simpl; now rewrite ?IH.
Qed.

Lemma filter_removed_other n m c :
  n <> m -> filter (has_id m) (removed n c) = filter (has_id m) c.
Proof.
  intros Hnm. unfold removed. induction c as [|i c IH]; simpl; [reflexivity|].
  destruct (has_id n i) eqn:En; simpl.
  - destruct (has_id m i) eqn:Em; [|exact IH].
    apply has_id_line_id in En, Em. congruence.
  - destruct (has_id m i); now rewrite IH.
Qed.

Lemma sum_qty_removed n c i :
  NoDup (map line_id c) -> find (has_id n) c = Some i ->
  sum_qty (removed n c) = sum_qty c - qty i /\
  List.length (removed n c) = Nat.pred (List.length c).
Proof.
  unfold removed. induction c as [|j c IH]; simpl; [discriminate|].
  intros Hd F. inversion Hd as [|x l Hx Hl]; subst.
  destruct (has_id n j) eqn:E; simpl.
  - injection F as ->. apply has_id_line_id in E. rewrite E in Hx.
    apply find_none_not_in in Hx. fold (removed n c).
    rewrite (removed_absent _ _ Hx). split; lia.
  - destruct (IH Hl F) as [H1 H2]. rewrite H1, H2. split; [lia|].
    destruct c; [discriminate | reflexivity].
Qed.

(** X6: remove takes the line out and nothing else.  After remove(n) no
    line for n is left, whatever the cart; removing n again changes
    nothing; the lines for any other id are as they were, in their order;
    two removals give the same cart in either order.  On a cart of
    distinct ids that has a line for n, exactly that line goes: the cart
    is one line shorter and its quantities sum to that much less. *)
Theorem remove_takes_the_line s n :
  find (has_id n) (cart (final (removeFromCart n s))) = None /\
  cart (final (removeFromCart n (final (removeFromCart n s))))
  = cart (final (removeFromCart n s)) /\
  (forall m, n <> m ->
     filter (has_id m) (cart (final (removeFromCart n s)))
     = filter (has_id m) (cart s)) /\
  (forall m,
     cart (final (removeFromCart m (final (removeFromCart n s))))
     = cart (final (removeFromCart n (final (removeFromCart m s))))) /\
  (forall i, NoDup (map line_id (cart s)) ->
     find (has_id n) (cart s) = Some i ->
     sum_qty (cart (final (removeFromCart n s))) = sum_qty (cart s) - qty i /\
     List.length (cart (final (removeFromCart n s)))
     = Nat.pred (List.length (cart s))).
Proof.
  rewrite !removeFromCart_cart. split; [apply find_removed|].
  split; [apply removed_absent, find_removed|].
  split; [intros m H; now apply filter_removed_other|].
  split.
  - intros m. rewrite !removeFromCart_cart. apply removed_comm.
  - intros i Hd F. now apply sum_qty_removed.
Qed.

Lemma remove_takes_the_line_witness :
  NoDup (map line_id (cart scenario_state)) /\
  find (has_id 1) (cart scenario_state) = Some (new_line redShirt 2) /\
  sum_qty (cart (final (removeFromCart 1 scenario_state))) = 3 - 2 /\
  List.length (cart (final (removeFromCart 1 scenario_state))) = 1%nat.
Proof.
  assert (E : cart scenario_state = fixture_cart) by (vm_compute; reflexivity).
  assert (Hd : NoDup (map line_id (cart scenario_state))).
  { rewrite E. repeat constructor; simpl; intuition discriminate. }
  assert (F : find (has_id 1) (cart scenario_state) = Some (new_line redShirt 2))
    by (rewrite E; reflexivity).
  destruct (proj2 (proj2 (proj2 (proj2 (remove_takes_the_line scenario_state 1))))
              _ Hd F) as [A B].
  split; [exact Hd|]. split; [exact F|]. split.
  - rewrite A, E. reflexivity.
  - rewrite B, E. reflexivity.
Defined.

(* ---- a cart that cannot be drawn ---- *)

Lemma incomplete_not_nil c : forallb complete c = false -> c <> [].
Proof. intros H ->. discriminate. Qed.

Lemma incomplete_added p c :
  forallb complete c = false -> forallb complete (added p c) = false.
Proof.
  intros H. unfold added. destruct (find (has_id (id p)) c).
  - now rewrite complete_update_first.
  - now rewrite forallb_app, H.
Qed.

Lemma incomplete_removed n c :
  forallb complete c = false -> forallb complete (removed n c) = false.
Proof.
  unfold removed. induction c as [|i c IH]; simpl; [discriminate|].
  destruct (complete i) eqn:Ci; simpl.
  - intros H. destruct (has_id n i); simpl; [|rewrite Ci]; auto.
  - intros _. assert (E : has_id n i = false).
    { unfold has_id, line_id, complete in *. now destruct (product i). }
    rewrite E. simpl. now rewrite Ci.
Qed.

Lemma store_then_throw s c :
  forallb complete c = false ->
  exists s',
    updateCartUI (saved (set_cart c s)) = Throw (TypeError "toFixed") s' []
    /\ cart s' = c /\ stored_in_sync s'.
Proof.
  intros H.
  destruct (updateCartUI_throws (saved (set_cart c s)))
    as (s' & E & Hc & Hs); [now apply incomplete_not_nil | exact H |].
  exists s'. split; [exact E|]. split; [exact Hc|].
  unfold stored_in_sync. rewrite Hs, Hc. reflexivity.
Qed.

(** X7: a cart that cannot be drawn.  When some line of the cart lacks its
    product (the line { qty: 1 } of an add without product), every add and
    every remove stores the cart it makes and then throws in updateCartUI,
    reading toFixed of the missing price; the line without product stays,
    for it answers to no id.  checkout and a confirmed clear still return
    and leave the empty cart. *)
Theorem undrawable_cart s :
  forallb complete (cart s) = false ->
  (forall p, exists s',
     addToCart (Some p) s =
     Throw (TypeError "toFixed") s'
       [SetItem "cart" (JSON.stringify (cart_value (added p (cart s))))] /\
     cart s' = added p (cart s) /\ stored_in_sync s' /\
     forallb complete (cart s') = false) /\
  (forall n, exists s',
     removeFromCart n s =
     Throw (TypeError "toFixed") s'
       [SetItem "cart" (JSON.stringify (cart_value (removed n (cart s))))] /\
     cart s' = removed n (cart s) /\ stored_in_sync s' /\
     forallb complete (cart s') = false) /\
  (exists s' log, checkout s = Return tt s' log /\ cart s' = []) /\
  (exists s' log, clearCart true s = Return tt s' log /\ cart s' = []).
Proof.
  intros H. pose proof (incomplete_not_nil _ H) as Hne.
  split; [|split; [|split]].
  - intros p.
    destruct (store_then_throw s (added p (cart s)) (incomplete_added p _ H))
      as (s' & E & Hc & Hs).
    exists s'. split; [|split; [exact Hc | split; [exact Hs|]]].
    + unfold addToCart, bind at 1, get. unfold bind at 1.
      assert (Step : (match find (has_id (id p)) (cart s) with
                      | Some _ =>
                          modify (set_cart
                                    (update_first (has_id (id p))
                                       (fun i => set_qty (qty i + 1) i) (cart s)))
                      | None =>
                          modify (set_cart (cart s ++ [{| product := Some p; qty := 1 |}]))
                      end) s = Return tt (set_cart (added p (cart s)) s) []).
      { unfold added, new_line. now destruct (find (has_id (id p)) (cart s)). }
      rewrite Step. unfold bind. rewrite saveCart_run, E. reflexivity.
    + rewrite Hc. now apply incomplete_added.
  - intros n.
    destruct (store_then_throw s (removed n (cart s)) (incomplete_removed n _ H))
      as (s' & E & Hc & Hs).
    exists s'. split; [|split; [exact Hc | split; [exact Hs|]]].
    + unfold removeFromCart, bind at 1, get. unfold bind at 1, modify.
      fold (removed n (cart s)). unfold bind. rewrite saveCart_run, E.
      reflexivity.
    + rewrite Hc. now apply incomplete_removed.
  - rewrite (checkout_run _ Hne). now do 2 eexists.
  - rewrite (clearCart_confirmed _ Hne). now do 2 eexists.
Qed.

Lemma undrawable_cart_witness :
  forallb complete (cart (set_cart [orphan_line] blank)) = false /\
  (exists s', addToCart (Some redShirt) (set_cart [orphan_line] blank) =
              Throw (TypeError "toFixed") s'
                [SetItem "cart"
                   (JSON.stringify (cart_value [orphan_line; new_line redShirt 1]))]) /\
  exists s' log, checkout (set_cart [orphan_line] blank) = Return tt s' log /\
                 cart s' = [].
Proof.
  assert (H : forallb complete (cart (set_cart [orphan_line] blank)) = false)
    by reflexivity.
  destruct (undrawable_cart _ H) as (A & _ & C & _).
  split; [exact H|]. split; [|exact C].
  destruct (A redShirt) as (s' & E & _). exists s'. exact E.
Defined.

End CartExtras.

(* ------------------------------------------------------------------ *)
(* The click handlers.                                                 *)

Section Clicks.

Implicit Types (s : State) (e : Target) (p : Product).

Lemma bind_quiet_r (m k : M unit) s :
  (forall s', k s' = Return tt s' []) -> (m ;; k) s = m s.
Proof.
  intros H. unfold bind. destruct (m s) as [[] s1 l1|err s1 l1]; [|reflexivity].
  now rewrite H, app_nil_r.
Qed.

Lemma bind_ret_l (m : M unit) s : (ret tt ;; m) s = m s.
Proof.
  unfold bind, ret. now destruct (m s).
Qed.

Lemma handleCartClick_guard e s :
  data_id e = None \/ data_id e = Some 0 ->
  handleCartClick e s = Return tt s [].
Proof.
  unfold handleCartClick. intros [->| ->]; reflexivity.
Qed.

Lemma handleCartClick_action e s n :
  data_id e = Some n -> n <> 0 ->
  handleCartClick e s =
  (when (action_is "inc" e) (changeQty n 1) ;;
   when (action_is "dec" e) (changeQty n (-1)) ;;
   when (action_is "remove" e) (removeFromCart n)) s.
Proof.
  intros E Hn. unfold handleCartClick. rewrite E.
  apply Z.eqb_neq in Hn. now rewrite Hn.
Qed.

(** X8: the clicks in the cart panel.  A click whose data-id is 0 or not a
    number does nothing, even when the cart has a line for the id 0: no
    click can change or remove such a line.  For any other id, a click
    with the action inc is changeQty(id, +1), with dec changeQty(id, -1),
    with remove removeFromCart(id), and with any other action or none it
    does nothing.  On a cart that keeps the invariant every click returns
    and keeps it. *)
Theorem cart_clicks e s :
  (data_id e = None \/ data_id e = Some 0 ->
   handleCartClick e s = Return tt s []) /\
  (forall n, data_id e = Some n -> n <> 0 ->
     (data_action e = Some "inc"%string ->
      handleCartClick e s = changeQty n 1 s) /\
     (data_action e = Some "dec"%string ->
      handleCartClick e s = changeQty n (-1) s) /\
     (data_action e = Some "remove"%string ->
      handleCartClick e s = removeFromCart n s) /\
     (action_is "inc" e = false -> action_is "dec" e = false ->
      action_is "remove" e = false ->
      handleCartClick e s = Return tt s [])) /\
  (cart_ok (cart s) ->
   exists s' log, handleCartClick e s = Return tt s' log /\ cart_ok (cart s')).
Proof.
  split; [apply handleCartClick_guard|].
  assert (Cases : forall n, data_id e = Some n -> n <> 0 ->
     (data_action e = Some "inc"%string ->
      handleCartClick e s = changeQty n 1 s) /\
     (data_action e = Some "dec"%string ->
      handleCartClick e s = changeQty n (-1) s) /\
     (data_action e = Some "remove"%string ->
      handleCartClick e s = removeFromCart n s) /\
     (action_is "inc" e = false -> action_is "dec" e = false ->
      action_is "remove" e = false ->
      handleCartClick e s = Return tt s [])).
  { intros n E Hn. rewrite (handleCartClick_action e s n E Hn).
    split; [|split; [|split]].
    - intros A.
      assert (Ai : action_is "inc" e = true)
        by (unfold action_is; now rewrite A).
      assert (Ad : action_is "dec" e = false)
        by (unfold action_is; now rewrite A).
      assert (Ar : action_is "remove" e = false)
        by (unfold action_is; now rewrite A).
      rewrite Ai, Ad, Ar. unfold when. now apply bind_quiet_r.
    - intros A.
      assert (Ai : action_is "inc" e = false)
        by (unfold action_is; now rewrite A).
      assert (Ad : action_is "dec" e = true)
        by (unfold action_is; now rewrite A).
      assert (Ar : action_is "remove" e = false)
        by (unfold action_is; now rewrite A).
      rewrite Ai, Ad, Ar. unfold when. rewrite bind_ret_l.
      now apply bind_quiet_r.
    - intros A.
      assert (Ai : action_is "inc" e = false)
        by (unfold action_is; now rewrite A).
      assert (Ad : action_is "dec" e = false)
        by (unfold action_is; now rewrite A).
      assert (Ar : action_is "remove" e = true)
        by (unfold action_is; now rewrite A).
      rewrite Ai, Ad, Ar. unfold when. now rewrite !bind_ret_l.
    - intros A B C. rewrite A, B, C. reflexivity. }
  split; [exact Cases|].
  intros Hok.
  destruct (data_id e) as [n|] eqn:E;
    [|rewrite handleCartClick_guard by (now left); now do 2 eexists].
  destruct (Z.eq_dec n 0) as [->|Hn];
    [rewrite handleCartClick_guard by (now right); now do 2 eexists|].
  destruct (Cases n eq_refl Hn) as (Hi & Hd & Hr & Ho).
  destruct (action_is "inc" e) eqn:Ai.
  - assert (A : data_action e = Some "inc"%string).
    { unfold action_is in Ai. destruct (data_action e) as [b|]; [|discriminate].
      apply String.eqb_eq in Ai. now subst. }
    rewrite (Hi A). exact (perform_ok (ChangeQty n 1) s Hok).
  - destruct (action_is "dec" e) eqn:Ad.
    + assert (A : data_action e = Some "dec"%string).
      { unfold action_is in Ad. destruct (data_action e) as [b|]; [|discriminate].
        apply String.eqb_eq in Ad. now subst. }
      rewrite (Hd A). exact (perform_ok (ChangeQty n (-1)) s Hok).
    + destruct (action_is "remove" e) eqn:Ar.
      * assert (A : data_action e = Some "remove"%string).
        { unfold action_is in Ar. destruct (data_action e) as [b|]; [|discriminate].
          apply String.eqb_eq in Ar. now subst. }
        rewrite (Hr A). exact (perform_ok (Remove n) s Hok).
      * rewrite (Ho eq_refl eq_refl eq_refl). now do 2 eexists.
Qed.

Lemma cart_clicks_witness :
  (data_id (cart_button "remove" (Some 0)) = Some 0 /\
   find (has_id 0) (cart sample_state) = Some (new_line freeSample 3) /\
   handleCartClick (cart_button "remove" (Some 0)) sample_state
   = Return tt sample_state []) /\
  (data_id (cart_button "dec" (Some 2)) = Some 2 /\ 2 <> 0 /\
   data_action (cart_button "dec" (Some 2)) = Some "dec"%string /\
   handleCartClick (cart_button "dec" (Some 2)) scenario_state
   = changeQty 2 (-1) scenario_state).
Proof.
  split.
  - split; [reflexivity|]. split; [reflexivity|].
    apply (proj1 (cart_clicks (cart_button "remove" (Some 0)) sample_state)).
    now right.
  - assert (N : 2 <> 0) by discriminate.
    split; [reflexivity|]. split; [exact N|]. split; [reflexivity|].
    destruct (proj1 (proj2 (cart_clicks (cart_button "dec" (Some 2))
                              scenario_state)) 2 eq_refl N) as (_ & Hd & _).
    now apply Hd.
Defined.

(* ---- the buttons of the drawn cards ---- *)

Lemma find_by_id (l : list Product) p :
  In p l ->
  exists p', find (fun x => id x =? id p) l = Some p' /\ id p' = id p /\
             (NoDup (map id l) -> p' = p).
Proof.
  induction l as [|x l IH]; simpl; [tauto|]. intros Hin.
  destruct (id x =? id p) eqn:E.
  - apply Z.eqb_eq in E. exists x. split; [reflexivity|]. split; [exact E|].
    intros Hd. destruct Hin as [->|Hin]; [reflexivity|].
    inversion Hd as [|? ? Hx _]; subst. exfalso. apply Hx.
    rewrite E. now apply in_map.
  - destruct Hin as [->|Hin]; [rewrite Z.eqb_refl in E; discriminate|].
    destruct (IH Hin) as (p' & F & I & U). exists p'.
    split; [exact F|]. split; [exact I|].
    intros Hd. inversion Hd; subst. auto.
Qed.

Lemma handleProductClick_add e s n p :
  data_id e = Some n -> n <> 0 -> contains "add" e = true ->
  find (fun x => id x =? n) (products s) = Some p ->
  forallb complete (cart s) = true ->
  exists s' log, handleProductClick e s = Return tt s' log /\
                 cart s' = added p (cart s) /\
                 cartPanel_hidden (dom s') = false /\
                 products s' = products s /\
                 productList (dom s') = productList (dom s).
Proof.
  intros Hid Hn Hadd F Hc. unfold handleProductClick. rewrite Hid, Hadd.
  apply Z.eqb_neq in Hn. rewrite Hn.
  unfold bind at 1, get. rewrite F. unfold when at 1, bind at 1.
  rewrite (addToCart_run _ _ Hc).
  destruct (contains "details" e); do 2 eexists; repeat split.
Qed.

Lemma perform_keeps_catalog o s s' log :
  forallb complete (cart s) = true ->
  perform o s = Return tt s' log ->
  products s' = products s /\ filtered s' = filtered s /\
  productList (dom s') = productList (dom s) /\
  search_value (dom s') = search_value (dom s) /\
  categoryFilter_value (dom s') = categoryFilter_value (dom s).
Proof.
  intros Hc.
  destruct o as [p|n q|n|answer|]; cbn [perform].
  - rewrite (addToCart_run _ _ Hc). intros H. injection H as <- _.
    repeat split.
  - destruct (find (has_id n) (cart s)) eqn:F.
    + rewrite (changeQty_run _ _ _ _ F Hc). intros H. injection H as <- _.
      repeat split.
    + rewrite (changeQty_absent _ _ _ F). intros H. injection H as <- _.
      repeat split.
  - rewrite (removeFromCart_run _ _ Hc). intros H. injection H as <- _.
    repeat split.
  - destruct (cart s) eqn:E.
    + rewrite (clearCart_empty _ _ E). intros H. injection H as <- _.
      repeat split.
    + destruct answer.
      * rewrite clearCart_confirmed by congruence. intros H.
        injection H as <- _. repeat split.
      * rewrite clearCart_declined by congruence. intros H.
        injection H as <- _. repeat split.
  - destruct (cart s) eqn:E.
    + rewrite (checkout_empty _ E). intros H. injection H as <- _.
      repeat split.
    + rewrite checkout_run by congruence. intros H. injection H as <- _.
      repeat split.
Qed.

(** X9: the buttons of the drawn cards find their product.  applyFilters
    draws cards of products of the catalog only, and the operations of the
    cart leave the catalog and the cards as they are.  While the cards
    come from the catalog and the lines of the cart carry their product, a
    click on the add button of a card whose product has a non-zero id
    returns, opens the cart panel and does to the cart what add does for
    the first product of the catalog with that id, which is the product
    of the card when the ids of the catalog are distinct.  The add button
    of a product whose id is 0 does nothing. *)
Theorem drawn_buttons_find_their_product s :
  cards_from_catalog (final (applyFilters s)) /\
  (forall o s' log,
     forallb complete (cart s) = true -> perform o s = Return tt s' log ->
     cards_from_catalog s -> cards_from_catalog s') /\
  (forall p,
     cards_from_catalog s -> In p (productList (dom s)) ->
     forallb complete (cart s) = true -> id p <> 0 ->
     exists p' s' log,
       find (fun x => id x =? id p) (products s) = Some p' /\
       id p' = id p /\ (NoDup (map id (products s)) -> p' = p) /\
       handleProductClick (add_button (Some (id p))) s = Return tt s' log /\
       cart s' = added p' (cart s) /\
       cartPanel_hidden (dom s') = false /\
       cards_from_catalog s') /\
  (forall p, id p = 0 ->
     handleProductClick (add_button (Some (id p))) s = Return tt s []).
Proof.
  split; [|split; [|split]].
  - unfold cards_from_catalog. intros p Hp.
    change (In p (filter (shown (dom s)) (products s))) in Hp.
    apply filter_In in Hp. apply Hp.
  - intros o s' log Hc P H.
    destruct (perform_keeps_catalog _ _ _ _ Hc P) as (E1 & _ & E2 & _).
    unfold cards_from_catalog. now rewrite E1, E2.
  - intros p H Hin Hc Hn.
    destruct (find_by_id (products s) p (H p Hin)) as (p' & F & I & U).
    destruct (handleProductClick_add (add_button (Some (id p))) s (id p) p'
                eq_refl Hn eq_refl F Hc) as (s' & log & E & C & O & E1 & E2).
    exists p', s', log. repeat split; try assumption.
    unfold cards_from_catalog. now rewrite E1, E2.
  - intros p ->. reflexivity.
Qed.

Lemma drawn_buttons_find_their_product_witness :
  cards_from_catalog sample_state /\
  In redShirt (productList (dom sample_state)) /\
  forallb complete (cart sample_state) = true /\ id redShirt <> 0 /\
  (exists s' log,
     handleProductClick (add_button (Some 1)) sample_state = Return tt s' log /\
     cart s' = [new_line freeSample 3; new_line redShirt 1]) /\
  handleProductClick (add_button (Some (id freeSample))) sample_state
  = Return tt sample_state [].
Proof.
  assert (H1 : cards_from_catalog sample_state) by (intros p Hp; exact Hp).
  assert (H2 : In redShirt (productList (dom sample_state)))
    by (right; left; reflexivity).
  assert (H3 : forallb complete (cart sample_state) = true) by reflexivity.
  assert (H4 : id redShirt <> 0) by discriminate.
  destruct (drawn_buttons_find_their_product sample_state) as (_ & _ & A & B).
  destruct (A redShirt H1 H2 H3 H4) as (p' & s' & log & F & _ & _ & E & C & _).
  split; [exact H1|]. split; [exact H2|]. split; [exact H3|]. split; [exact H4|].
  split.
  - exists s', log. split; [exact E|]. rewrite C.
    assert (P : p' = redShirt).
    { assert (F' : find (fun x => id x =? id redShirt) (products sample_state)
                   = Some redShirt) by reflexivity.
      rewrite F' in F. now injection F. }
    rewrite P. reflexivity.
  - now apply B.
Defined.

End Clicks.

(* ------------------------------------------------------------------ *)
(* The filter.                                                         *)

Section FilterExtras.

Implicit Types (s : State) (v w q t pad : string) (c : ascii) (p : Product).


















End FilterExtras.

(* ------------------------------------------------------------------ *)
(* The contact form.                                                   *)

Section ContactExtras.

Implicit Types (f : ContactForm) (d : ContactData) (x l r : string) (c : ascii).







Lemma all_chars_app (g : ascii -> bool) l r :
  all_chars g (l ++ r) = all_chars g l && all_chars g r.
Proof.
  induction l as [|c l IH]; simpl; [reflexivity|].
  now rewrite IH, andb_assoc.
Qed.

Lemma count_char_app c l r :
  count_char c (l ++ r) = (count_char c l + count_char c r)%nat.
Proof. induction l as [|a l IH]; simpl; [reflexivity|]. rewrite IH. lia. Qed.

Lemma email_part_chars x :
  all_chars email_part x = true ->
  count_char "@" x = 0%nat /\
  all_chars (fun c => negb (is_white_space c)) x = true.
Proof.
  induction x as [|c x IH]; simpl; [auto|]. intros H.
  apply andb_true_iff in H as [Hc H]. destruct (IH H) as [-> ->].
  unfold email_part in Hc. apply negb_true_iff, orb_false_iff in Hc as [-> ->].
  auto.
Qed.

Lemma not_nil_length x : x <> ""%string -> (1 <= String.length x)%nat.
Proof. destruct x; [congruence | simpl; lia]. Qed.

(** X13: what an email that validateContact accepts looks like.  When the
    object of errors has no email message, the email holds exactly one @,
    no white space and at least 5 code units, it neither starts nor ends
    with the @, and a dot follows the @ at a distance of at least one code
    unit, with at least one code unit after it. *)
Theorem accepted_email d :
  error_for "email" (validateContact d) = None ->
  count_char "@" (email d) = 1%nat /\
  all_chars (fun c => negb (is_white_space c)) (email d) = true /\
  (5 <= String.length (email d))%nat /\
  exists l r t,
    email d = (l ++ "@" ++ r ++ "." ++ t)%string /\
    l <> ""%string /\ r <> ""%string /\ t <> ""%string /\
    count_char "@" l = 0%nat.
Proof.
  intros H.
  assert (T : RegExp.test email_regex (email d) = true).
  { destruct (RegExp.test email_regex (email d)) eqn:E; [reflexivity|].
    apply error_for_email in E. congruence. }
  apply email_regex_shape in T.
  destruct T as (l & r & t & E & [Hl Al] & [Hr Ar] & [Ht At]).
  destruct (email_part_chars _ Al) as [Cl Wl].
  destruct (email_part_chars _ Ar) as [Cr Wr].
  destruct (email_part_chars _ At) as [Ct Wt].
  apply not_nil_length in Hl as Ll, Hr as Lr, Ht as Lt.
  rewrite E. split; [|split; [|split]].
  - rewrite !count_char_app, Cl, Cr, Ct. reflexivity.
  - rewrite !all_chars_app, Wl, Wr, Wt. reflexivity.
  - rewrite !length_append. simpl. lia.
  - exists l, r, t. auto.
Qed.

Lemma accepted_email_witness :
  error_for "email"
    (validateContact {| name := "Ana"; email := "ana@example.org";
                        message := "Hola, buenas tardes" |}) = None /\
  count_char "@" "ana@example.org" = 1%nat.
Proof.
  split; [reflexivity|].
  apply (accepted_email {| name := "Ana"; email := "ana@example.org";
                           message := "Hola, buenas tardes" |}).
  reflexivity.
Defined.

End ContactExtras.

(* ------------------------------------------------------------------ *)
(* escape.                                                             *)

Section EscapeExtras.

Implicit Types (t a b : string) (c : ascii) (s : State).

Lemma escape_char_markup c :
  all_chars (fun x => negb (is_markup x)) (escape_char c) = true.
Proof. destruct c as [[] [] [] [] [] [] [] []]; reflexivity. Qed.

Lemma escape_char_plain c : is_plain c = true -> escape_char c = String c "".
Proof.
  destruct c as [[] [] [] [] [] [] [] []]; intros H;
    reflexivity || discriminate H.
Qed.

Lemma escape_char_special c :
  is_plain c = false ->
  (2 <= String.length (escape_char c))%nat /\
  exists r, escape_char c = String "&" r.
Proof.
  destruct c as [[] [] [] [] [] [] [] []]; intros H; try discriminate H;
    (split; [simpl; lia | eexists; reflexivity]).
Qed.

Lemma concat_map_app (g : ascii -> string) a b :
  concat_map g (a ++ b)%string = (concat_map g a ++ concat_map g b)%string.
Proof.
  induction a as [|c a IH]; simpl; [reflexivity|].
  now rewrite IH, append_assoc.
Qed.

Lemma escape_markup t :
  all_chars (fun x => negb (is_markup x)) (concat_map escape_char t) = true.
Proof.
  induction t as [|c t IH]; simpl; [reflexivity|].
  now rewrite all_chars_app, escape_char_markup, IH.
Qed.

Lemma escape_plain t :
  all_chars is_plain t = true -> concat_map escape_char t = t.
Proof.
  induction t as [|c t IH]; simpl; [reflexivity|]. intros H.
  apply andb_true_iff in H as [Hc H].
  now rewrite (escape_char_plain _ Hc), IH.
Qed.

Lemma escape_length t :
  (String.length t <= String.length (concat_map escape_char t))%nat.
Proof.
  induction t as [|c t IH]; simpl; [lia|]. rewrite length_append.
  destruct (is_plain c) eqn:E.
  - rewrite (escape_char_plain _ E). simpl. lia.
  - destruct (escape_char_special _ E) as [L _]. lia.
Qed.

Lemma escape_longer t :
  all_chars is_plain t = false ->
  (String.length t < String.length (concat_map escape_char t))%nat.
Proof.
  induction t as [|c t IH]; simpl; [discriminate|]. rewrite length_append.
  destruct (is_plain c) eqn:E; simpl.
  - intros H. rewrite (escape_char_plain _ E). simpl. apply IH in H. lia.
  - intros _. destruct (escape_char_special _ E) as [L _].
    pose proof (escape_length t). lia.
Qed.

Lemma escape_ampersand t :
  all_chars is_plain t = false ->
  all_chars is_plain (concat_map escape_char t) = false.
Proof.
  induction t as [|c t IH]; simpl; [discriminate|]. rewrite all_chars_app.
  destruct (is_plain c) eqn:E; simpl.
  - intros H. rewrite (escape_char_plain _ E). simpl. now rewrite E, IH.
  - intros _. destruct (escape_char_special _ E) as [_ [r ->]]. reflexivity.
Qed.

Lemma views_markup (c0 : list CartLine) :
  Forall (fun v =>
            all_chars (fun x => negb (is_markup x)) (view_title v) = true /\
            all_chars (fun x => negb (is_markup x)) (view_image v) = true)
         (views c0).
Proof.
  unfold views. destruct (render_lines c0) as [l|] eqn:R; [|constructor].
  revert l R. induction c0 as [|i c0 IH]; simpl; intros l R.
  - injection R as <-. constructor.
  - unfold render_line in R. destruct (product i) as [p|]; [|discriminate].
    destruct (render_lines c0) as [l'|]; [|discriminate].
    injection R as <-. constructor; [|now apply IH].
    split; apply escape_markup.
Qed.

Lemma updateCartUI_returns s :
  returns (updateCartUI s) = true -> forallb complete (cart s) = true.
Proof.
  intros H. destruct (forallb complete (cart s)) eqn:E; [reflexivity|].
  destruct (updateCartUI_throws s) as (s' & T & _); [|exact E|].
  - intros N. rewrite N in E. discriminate.
  - rewrite T in H. discriminate.
Qed.

(** X14: escape takes the markup out of a text.  Its result holds none of
    the code units < > and the two quotes, whatever the text; it is the
    text itself exactly when the text holds none of them and no ampersand;
    escaping twice gives the result of escaping once exactly in that case;
    it is never shorter than the text; the result for two texts put
    together is the two results put together; and without an argument it
    is the empty text. *)
Theorem escape_takes_markup_out :
  (forall str, all_chars (fun x => negb (is_markup x)) (escape str) = true) /\
  (forall t, escape (Some t) = t <-> all_chars is_plain t = true) /\
  (forall t, escape (Some (escape (Some t))) = escape (Some t)
             <-> all_chars is_plain t = true) /\
  (forall t, (String.length t <= String.length (escape (Some t)))%nat) /\
  (forall a b, escape (Some (a ++ b)%string) = (escape (Some a) ++ escape (Some b))%string) /\
  escape None = ""%string.
Proof.
  unfold escape. split; [|split; [|split; [|split; [|split]]]].
  - intros str. apply escape_markup.
  - intros t. split; [|apply escape_plain].
    intros H. destruct (all_chars is_plain t) eqn:E; [reflexivity|].
    apply escape_longer in E. rewrite H in E. lia.
  - intros t. split.
    + intros H. destruct (all_chars is_plain t) eqn:E; [reflexivity|].
      apply escape_ampersand, escape_longer in E. rewrite H in E. lia.
    + intros H. now rewrite !(escape_plain _ H).
  - apply escape_length.
  - apply concat_map_app.
  - reflexivity.
Qed.

(** X15: the cart lines updateCartUI draws are free of markup.  Whenever
    updateCartUI returns, the title and the image address of every line it
    has drawn hold none of the code units < > and the two quotes, whatever
    the products in the cart hold. *)
Theorem drawn_lines_hold_no_markup s :
  returns (updateCartUI s) = true ->
  Forall (fun v =>
            all_chars (fun x => negb (is_markup x)) (view_title v) = true /\
            all_chars (fun x => negb (is_markup x)) (view_image v) = true)
         (cartItems (dom (final (updateCartUI s)))).
Proof.
  intros H. apply updateCartUI_returns in H.
  rewrite (updateCartUI_run _ H). apply views_markup.
Qed.

Lemma drawn_lines_hold_no_markup_witness :
  returns (updateCartUI bold_state) = true /\
  Forall (fun v =>
            all_chars (fun x => negb (is_markup x)) (view_title v) = true /\
            all_chars (fun x => negb (is_markup x)) (view_image v) = true)
         (cartItems (dom (final (updateCartUI bold_state)))).
Proof.
  split; [vm_compute; reflexivity|].
  apply (drawn_lines_hold_no_markup bold_state). vm_compute. reflexivity.
Defined.

End EscapeExtras.

(* ------------------------------------------------------------------ *)
(* debounce.                                                           *)

Section DebounceExtras.

Variable A : Type.

Implicit Types (c : Debounce.Closure A) (a : A) (h : nat)
               (events : list (Debounce.Event A)) (l : list A).

Lemma tidy_cases c :
  Debounce.tidy c ->
  Debounce.waiting (Debounce.clock c) = [] \/
  exists h a, Debounce.waiting (Debounce.clock c) = [(h, a)] /\
              Debounce.t c = Some h.
Proof.
  unfold Debounce.tidy.
  destruct (Debounce.waiting (Debounce.clock c)) as [|[h a] [|e w]];
    [now left | | contradiction].
  intros [H _]. right. now exists h, a.
Qed.

Lemma call_waiting a c :
  Debounce.tidy c ->
  Debounce.t (Debounce.call a c) = Some (Debounce.next_handle (Debounce.clock c)) /\
  Debounce.waiting (Debounce.clock (Debounce.call a c))
  = [(Debounce.next_handle (Debounce.clock c), a)].
Proof.
  intros H. unfold Debounce.call, Debounce.setTimeout. cbn.
  destruct (tidy_cases c H) as [E|(h & a0 & E & T)].
  - split; [destruct (Debounce.t c); reflexivity|].
    destruct (Debounce.t c); cbn; rewrite E; reflexivity.
  - rewrite T. cbn. rewrite E. cbn. now rewrite Nat.eqb_refl.
Qed.

Lemma call_tidy a c : Debounce.tidy c -> Debounce.tidy (Debounce.call a c).
Proof.
  intros H. destruct (call_waiting a c H) as [T W].
  unfold Debounce.tidy. rewrite W. split; [exact T|].
  unfold Debounce.call, Debounce.setTimeout.
  destruct (Debounce.t c); cbn; lia.
Qed.

Lemma fire_cases h c :
  Debounce.tidy c ->
  (Debounce.fire h c = (c, []) /\
   forall a, Debounce.waiting (Debounce.clock c) <> [(h, a)]) \/
  (exists a, Debounce.waiting (Debounce.clock c) = [(h, a)] /\
             snd (Debounce.fire h c) = [a] /\
             Debounce.waiting (Debounce.clock (fst (Debounce.fire h c))) = [] /\
             Debounce.t (fst (Debounce.fire h c)) = Debounce.t c).
Proof.
  intros H. unfold Debounce.fire.
  destruct (tidy_cases c H) as [E|(h0 & a0 & E & T)]; rewrite E; cbn.
  - left. split; [reflexivity | discriminate].
  - destruct (Nat.eqb_spec h0 h) as [->|N].
    + right. exists a0. cbn. rewrite E. cbn. now rewrite Nat.eqb_refl.
    + left. split; [reflexivity|]. intros a [= ? ?]. contradiction.
Qed.

Lemma fire_tidy h c :
  Debounce.tidy c -> Debounce.tidy (fst (Debounce.fire h c)).
Proof.
  intros H. destruct (fire_cases h c H) as [[E _]|(a & _ & _ & W & _)].
  - now rewrite E.
  - unfold Debounce.tidy. now rewrite W.
Qed.

Lemma play_tidy events c :
  Debounce.tidy c -> Debounce.tidy (fst (Debounce.play events c)).
Proof.
  revert c. induction events as [|[a|h] rest IH]; intros c H; cbn.
  - exact H.
  - apply IH. now apply call_tidy.
  - pose proof (IH _ (fire_tidy h c H)) as T.
    destruct (Debounce.fire h c) as [c1 out1]. cbn in T.
    now destruct (Debounce.play rest c1) as [c2 out2].
Qed.

Lemma subsequence_nil_l l : subsequence [] l.
Proof. induction l; constructor; assumption. Qed.

Lemma subsequence_app_skip l l1 l2 :
  subsequence l1 l2 -> subsequence l1 (l ++ l2).
Proof. induction l; simpl; [auto | constructor; auto]. Qed.

Lemma subsequence_length l1 l2 :
  subsequence l1 l2 -> (List.length l1 <= List.length l2)%nat.
Proof. induction 1; simpl; lia. Qed.

Lemma play_subsequence events c :
  Debounce.tidy c ->
  subsequence (snd (Debounce.play events c))
              (map snd (Debounce.waiting (Debounce.clock c)) ++ Debounce.calls_of events).
Proof.
  revert c. induction events as [|[a|h] rest IH]; intros c H; cbn.
  - apply subsequence_nil_l.
  - pose proof (IH _ (call_tidy a c H)) as S.
    destruct (call_waiting a c H) as [_ W].
    rewrite W in S. now apply subsequence_app_skip.
  - pose proof (IH _ (fire_tidy h c H)) as S.
    destruct (fire_cases h c H) as [[E _]|(a & W & O & W' & _)].
    + rewrite E in *. cbn in S.
      now destruct (Debounce.play rest c) as [c2 out2].
    + rewrite W' in S. cbn in S. rewrite W. cbn.
      destruct (Debounce.fire h c) as [c1 out1]. cbn in O, S. subst out1.
      destruct (Debounce.play rest c1) as [c2 out2]. cbn in *.
      now constructor.
Qed.

Lemma play_calls l c :
  Debounce.play (map Debounce.Call l) c
  = (fold_left (fun c a => Debounce.call a c) l c, []).
Proof. revert c. induction l as [|a l IH]; intros c; cbn; auto. Qed.

(** X16: the debounced function calls fn with arguments it was called
    with, in their order, and no more often than it was called.  From the
    closure debounce returns, whatever the order in which calls arrive and
    timers come due, at most one timer waits at any time, and the calls of
    fn are the calls of the debounced function with some of them left
    out. *)
Theorem debounce_calls_are_some_calls (n : nat) events :
  Debounce.tidy (fst (Debounce.play events (Debounce.fresh n))) /\
  subsequence (snd (Debounce.play events (Debounce.fresh n)))
              (Debounce.calls_of events) /\
  (List.length (snd (Debounce.play events (Debounce.fresh n)))
   <= List.length (Debounce.calls_of events))%nat.
Proof.
  assert (T : Debounce.tidy (Debounce.fresh (A:=A) n)) by exact I.
  pose proof (play_subsequence events _ T) as S. cbn in S.
  split; [now apply play_tidy|]. split; [exact S|].
  now apply subsequence_length.
Qed.

(** X17: of a burst of calls only the last one reaches fn.  When the
    debounced function is called several times with no timer coming due
    in between, fn is not called meanwhile; then the timer the closure
    holds calls fn once, with the arguments of the last call, any other
    timer calls nothing, and afterwards no timer calls fn before the next
    call. *)
Theorem debounce_keeps_the_last_call c l a :
  Debounce.tidy c ->
  snd (Debounce.play (map Debounce.Call (l ++ [a])) c) = [] /\
  exists h,
    Debounce.t (fst (Debounce.play (map Debounce.Call (l ++ [a])) c)) = Some h /\
    snd (Debounce.fire h (fst (Debounce.play (map Debounce.Call (l ++ [a])) c)))
    = [a] /\
    (forall h', h' <> h ->
       snd (Debounce.fire h' (fst (Debounce.play (map Debounce.Call (l ++ [a])) c)))
       = []) /\
    (forall h',
       snd (Debounce.fire h'
              (fst (Debounce.fire h
                      (fst (Debounce.play (map Debounce.Call (l ++ [a])) c)))))
       = []).
Proof.
  intros H. rewrite play_calls, fold_left_app. cbn [fold_left fst snd].
  set (c0 := fold_left (fun c a => Debounce.call a c) l c).
  assert (H0 : Debounce.tidy c0).
  { pose proof (play_tidy (map Debounce.Call l) c H) as T.
    now rewrite play_calls in T. }
  destruct (call_waiting a c0 H0) as [T W].
  pose proof (call_tidy a c0 H0) as H1.
  split; [reflexivity|].
  exists (Debounce.next_handle (Debounce.clock c0)).
  split; [exact T|]. split; [|split].
  - destruct (fire_cases (Debounce.next_handle (Debounce.clock c0)) _ H1)
      as [[_ N]|(a' & W' & O & _)].
    + now destruct (N a).
    + rewrite W in W'. now injection W' as ->.
  - intros h' N.
    destruct (fire_cases h' _ H1) as [[E _]|(a' & W' & _)].
    + now rewrite E.
    + rewrite W in W'. injection W' as E _. congruence.
  - intros h'.
    destruct (fire_cases (Debounce.next_handle (Debounce.clock c0)) _ H1)
      as [[_ N]|(a' & _ & _ & W' & _)].
    + now destruct (N a).
    + unfold Debounce.fire at 1. rewrite W'. reflexivity.
Qed.

End DebounceExtras.

Lemma debounce_keeps_the_last_call_witness :
  Debounce.tidy (Debounce.fresh (A:=string) 1) /\
  snd (Debounce.fire 3
         (fst (Debounce.play (map Debounce.Call (["s"; "sh"] ++ ["shi"]))%string
                 (Debounce.fresh 1))))
  = ["shi"%string].
Proof.
  split; [exact I|].
  destruct (debounce_keeps_the_last_call string (Debounce.fresh 1)
              ["s"; "sh"]%string "shi"%string I) as (_ & h & T & F & _).
  injection T as <-. exact F.
Defined.

(* ------------------------------------------------------------------ *)
(* The cart panel.                                                     *)

Section PanelExtras.

Implicit Types (s : State) (p : Product) (o : Op).

Lemma perform_panel o s :
  forallb complete (cart s) = true ->
  (cartPanel_hidden (dom (final (perform o s))),
   cartToggle_expanded (dom (final (perform o s))))
  = match o with
    | Add _ => (false, true)
    | Checkout =>
        match cart s with
        | [] => (cartPanel_hidden (dom s), cartToggle_expanded (dom s))
        | _ :: _ => (true, false)
        end
    | _ => (cartPanel_hidden (dom s), cartToggle_expanded (dom s))
    end.
Proof.
  intros H. destruct o as [p|n q|n|answer|]; cbn [perform].
  - now rewrite (addToCart_run _ _ H).
  - destruct (find (has_id n) (cart s)) as [i|] eqn:F.
    + now rewrite (changeQty_run _ _ _ _ F H).
    + now rewrite (changeQty_absent _ _ _ F).
  - now rewrite (removeFromCart_run _ _ H).
  - destruct (cart s) as [|i c] eqn:E.
    + now rewrite (clearCart_empty _ _ E).
    + assert (N : cart s <> []) by (rewrite E; discriminate).
      destruct answer;
        [now rewrite (clearCart_confirmed _ N)
        | now rewrite (clearCart_declined _ N)].
  - destruct (cart s) as [|i c] eqn:E.
    + now rewrite (checkout_empty _ E).
    + assert (N : cart s <> []) by (rewrite E; discriminate).
      now rewrite (checkout_run _ N).
Qed.

(** X18: who moves the cart panel.  In a state whose cart lines carry
    their product, adding a product leaves the panel shown, a checkout of
    a cart that is not empty leaves it hidden, and every other operation
    of the cart leaves it as it was; aria-expanded of the toggle, once it
    says whether the panel is shown, goes on saying so after every
    operation.  toggleCart shows a hidden panel and hides a shown one,
    leaves aria-expanded saying which, and touches neither the cart nor
    the stored slot; a third toggle in a row leaves the state of the
    first. *)
Theorem cart_panel_moves s :
  forallb complete (cart s) = true ->
  (forall p, cartPanel_hidden (dom (final (addToCart (Some p) s))) = false) /\
  (cart s <> [] -> cartPanel_hidden (dom (final (checkout s))) = true) /\
  (forall o,
     (forall p, o <> Add p) -> (o = Checkout -> cart s = []) ->
     cartPanel_hidden (dom (final (perform o s))) = cartPanel_hidden (dom s)) /\
  (forall o, aria_agrees s -> aria_agrees (final (perform o s))) /\
  (cartPanel_hidden (dom (final (toggleCart s)))
   = negb (cartPanel_hidden (dom s)) /\
   aria_agrees (final (toggleCart s)) /\
   cart (final (toggleCart s)) = cart s /\
   localStorage_cart (final (toggleCart s)) = localStorage_cart s /\
   final (toggleCart (final (toggleCart (final (toggleCart s)))))
   = final (toggleCart s)).
Proof.
  intros H. split; [|split; [|split; [|split]]].
  - intros p. pose proof (perform_panel (Add p) s H) as E.
    cbn [perform] in E. now injection E.
  - intros N. pose proof (perform_panel Checkout s H) as E.
    cbn [perform] in E. destruct (cart s); [congruence | now injection E].
  - intros o Na Nc. pose proof (perform_panel o s H) as E.
    destruct o as [p|n q|n|answer|]; try (now injection E).
    + now destruct (Na p).
    + rewrite (Nc eq_refl) in E. now injection E.
  - intros o Ha. pose proof (perform_panel o s H) as E. unfold aria_agrees in *.
    destruct o as [p|n q|n|answer|]; cbn [perform] in *; try destruct (cart s);
      injection E as E1 E2; rewrite E1, E2; auto.
  - unfold aria_agrees, toggleCart, bind, get, openCart, closeCart, modify.
    destruct (cartPanel_hidden (dom s)) eqn:E; cbn; repeat split.
Qed.

Lemma cart_panel_moves_witness :
  forallb complete (cart demo_state) = true /\
  cartPanel_hidden (dom (final (addToCart (Some blueHat) demo_state))) = false.
Proof.
  split; [vm_compute; reflexivity|].
  apply (cart_panel_moves demo_state). vm_compute. reflexivity.
Defined.

End PanelExtras.

(* ------------------------------------------------------------------ *)
(* Clicks in the product list.                                         *)

Section ProductClicks.

Implicit Types (s : State) (e : Target) (n : Z).

Lemma keeps_bind {A B} (m : M A) (k : A -> M B) :
  keeps_to_the_cart m -> (forall a, keeps_to_the_cart (k a)) ->
  keeps_to_the_cart (bind m k).
Proof.
  intros Hm Hk s. unfold bind. specialize (Hm s).
  destruct (m s) as [a s1 l1|err s1 l1]; cbn in Hm; [|exact Hm].
  specialize (Hk a s1). destruct Hm as (W1 & P1 & F1 & L1).
  destruct (k a s1) as [b s2 l2|err s2 l2]; cbn in *;
    destruct Hk as (W2 & P2 & F2 & L2);
    (split; [intros u Hu; apply in_app_or in Hu as [Hu|Hu];
             [exact (W1 u Hu) | exact (W2 u Hu)]
            |split; [congruence | split; congruence]]).
Qed.

Lemma keeps_modify (f : State -> State) :
  (forall s, products (f s) = products s /\ filtered (f s) = filtered s /\
             productList (dom (f s)) = productList (dom s)) ->
  keeps_to_the_cart (modify f).
Proof. intros H s. cbn. split; [tauto | apply H]. Qed.

Lemma keeps_get : keeps_to_the_cart get.
Proof. intros s. cbn. tauto. Qed.

Lemma keeps_throw {A} err : keeps_to_the_cart (throw (A:=A) err).
Proof. intros s. cbn. tauto. Qed.

Lemma keeps_saveCart : keeps_to_the_cart saveCart.
Proof.
  intros s. rewrite saveCart_run. cbn. split; [|tauto].
  intros u [H|[]]. discriminate H.
Qed.

Lemma keeps_updateCartUI : keeps_to_the_cart updateCartUI.
Proof.
  unfold updateCartUI. apply keeps_bind; [apply keeps_get|]. intros s0.
  apply keeps_bind; [apply keeps_modify; intros s; cbn; tauto|]. intros _.
  apply keeps_bind; [|intros _; apply keeps_modify; intros s; cbn; tauto].
  destruct (cart s0); [apply keeps_modify; intros s; cbn; tauto|].
  destruct (render_lines _);
    [apply keeps_modify; intros s; cbn; tauto | apply keeps_throw].
Qed.

Lemma keeps_addToCart prod : keeps_to_the_cart (addToCart prod).
Proof.
  unfold addToCart. apply keeps_bind; [apply keeps_get|]. intros s0.
  apply keeps_bind.
  { destruct prod as [p|].
    - destruct (find _ _); apply keeps_modify; intros s; cbn; tauto.
    - destruct (cart s0);
        [apply keeps_modify; intros s; cbn; tauto | apply keeps_throw]. }
  intros _. apply keeps_bind; [apply keeps_saveCart|]. intros _.
  apply keeps_bind; [apply keeps_updateCartUI|]. intros _.
  apply keeps_bind.
  - intros s. cbn. split; [|tauto]. intros u [H|[]]. discriminate H.
  - intros _. apply keeps_modify. intros s. cbn. tauto.
Qed.

Lemma handleProductClick_guard e s :
  data_id e = None \/ data_id e = Some 0 ->
  handleProductClick e s = Return tt s [].
Proof.
  unfold handleProductClick. intros [->| ->]; reflexivity.
Qed.

Lemma handleProductClick_steps e s n :
  data_id e = Some n -> n <> 0 ->
  handleProductClick e s
  = (when (contains "add" e)
          (addToCart (find (fun p => id p =? n) (products s))) ;;
     when (contains "details" e) (emit (WindowOpen (details_url n)))) s.
Proof.
  intros Hid Hn. unfold handleProductClick. rewrite Hid.
  apply Z.eqb_neq in Hn. rewrite Hn. unfold bind at 1, get.
  unfold details_url.
  destruct (bind _ _ s); [now rewrite app_nil_l | reflexivity].
Qed.

(** X19: the clicks in the product list.  A click whose data-id is 0 or
    not a number does nothing.  For any other id, a click on an element
    without the class add changes nothing, and opens the address of the
    product in the catalog API exactly when the element has the class
    details.  Whatever the element and the state, a click opens a window
    only for an element with the class details and a non-zero id, only
    at that address and only when the click returns: when adding throws,
    no window is opened.  No click changes the catalog, the filtered view
    or the drawn cards. *)
Theorem product_clicks e s :
  (data_id e = None \/ data_id e = Some 0 ->
   handleProductClick e s = Return tt s []) /\
  (forall n, data_id e = Some n -> n <> 0 -> contains "add" e = false ->
     handleProductClick e s
     = Return tt s (if contains "details" e
                    then [WindowOpen (details_url n)] else [])) /\
  (forall u, In (WindowOpen u) (effects (handleProductClick e s)) ->
     contains "details" e = true /\
     returns (handleProductClick e s) = true /\
     exists n, data_id e = Some n /\ n <> 0 /\ u = details_url n) /\
  (products (final (handleProductClick e s)) = products s /\
   filtered (final (handleProductClick e s)) = filtered s /\
   productList (dom (final (handleProductClick e s))) = productList (dom s)).
Proof.
  destruct (data_id e) as [n|] eqn:Hid;
    [destruct (Z.eq_dec n 0) as [->|Hn]|].
  - rewrite (handleProductClick_guard e s) by auto.
    split; [reflexivity|]. split; [intros n' [= <-] N; now destruct N|].
    split; [intros u []|]. repeat split.
  - rewrite (handleProductClick_steps e s n Hid Hn).
    pose proof (keeps_addToCart (find (fun p => id p =? n) (products s)) s)
      as (W & P & F & L).
    split; [intros [E|E]; congruence|].
    split; [|split].
    + intros n' [= <-] _ ->. unfold when at 1. rewrite bind_ret_l.
      now destruct (contains "details" e).
    + intros u. unfold bind, when.
      destruct (contains "add" e).
      * destruct (addToCart _ s) as [[] s1 l1|err s1 l1]; cbn in W.
        -- destruct (contains "details" e); cbn.
           ++ intros Hu. apply in_app_or in Hu as [Hu|[Hu|[]]];
                [now destruct (W u)|]. injection Hu as <-.
              split; [reflexivity|]. split; [reflexivity|]. now exists n.
           ++ rewrite app_nil_r. intros Hu. now destruct (W u).
        -- cbn. intros Hu. now destruct (W u).
      * destruct (contains "details" e); cbn.
        -- intros [Hu|[]]. injection Hu as <-.
           split; [reflexivity|]. split; [reflexivity|]. now exists n.
        -- intros [].
    + unfold bind, when. destruct (contains "add" e).
      * destruct (addToCart _ s) as [[] s1 l1|err s1 l1]; cbn in P, F, L.
        -- destruct (contains "details" e); cbn; auto.
        -- cbn. auto.
      * destruct (contains "details" e); cbn; auto.
  - rewrite (handleProductClick_guard e s) by auto.
    split; [reflexivity|]. split; [intros n' E; discriminate E|].
    split; [intros u []|]. repeat split.
Qed.

Lemma product_clicks_witness :
  data_id (details_button (Some 2)) = Some 2 /\
  handleProductClick (details_button (Some 2)) demo_state
  = Return tt demo_state [WindowOpen (details_url 2)].
Proof.
  split; [reflexivity|].
  destruct (product_clicks (details_button (Some 2)) demo_state)
    as (_ & H & _).
  apply (H 2); [reflexivity | discriminate | reflexivity].
Defined.

End ProductClicks.
